(** * PipelClipper: the clip renderer and the clip-suggestion boundary

    A shallow embedding of
    - [src/types.ts]: the [AspectRatio] enum, [GeneratedClip],
      [getTargetDimensions], [renderClip] (with its [renderFrame] loop and the
      event handlers it installs) and [downloadClip];
    - [src/components/UploadSegment.tsx]: [analyzeVideoForClips] and
      [fallbackClips].

    JavaScript numbers are modelled by exact rationals ([Q]); a division whose
    divisor is zero is kept apart ([jsdiv] answers [None]) instead of being
    given a value.  Pixel dimensions and counters are integers ([Z]).  The
    source computes in IEEE 754 doubles: a statement over [Q] is a statement
    about its expressions in exact arithmetic, and where rounding decides
    whether a property holds the expression is also evaluated on binary64
    floats (section "Doubles"). *)

From Stdlib Require Import ZArith QArith Qabs Qminmax Qround Lqa Lia.
From Stdlib Require Import List Bool String Sorted DecimalString.
From Stdlib Require Import Uint63 Floats.
Import ListNotations.

Local Open Scope Q_scope.

(** ** Numbers *)

(** [a / b] of the source.  [None] stands for the result of a division by
    zero, which in JavaScript is no finite number (NaN or an infinity). *)
Definition jsdiv (a b : Q) : option Q :=
  if Qeq_bool b 0 then None else Some (a / b).

(** [a < b] and [a >= b] of the source, as booleans. *)
Definition Qltb (a b : Q) : bool := negb (Qle_bool b a).
Definition Qgeb (a b : Q) : bool := Qle_bool b a.

(** ** Geometry resolver *)

Inductive AspectRatio : Set :=
| PORTRAIT    (* '9:16' *)
| LANDSCAPE   (* '16:9' *)
| SQUARE      (* '1:1'  *)
| FOUR_FIVE   (* '4:5'  *)
| FIVE_FOUR.  (* '5:4'  *)

Record TargetGeometry : Set := { width : Z; height : Z }.

(** The [switch] of the source; its [default] arm is not reachable from a
    value of the enum. *)
Definition getTargetDimensions (ratio : AspectRatio) : TargetGeometry :=
  match ratio with
  | PORTRAIT  => {| width := 1080; height := 1920 |}
  | LANDSCAPE => {| width := 1920; height := 1080 |}
  | SQUARE    => {| width := 1080; height := 1080 |}
  | FOUR_FIVE => {| width := 1080; height := 1350 |}
  | FIVE_FOUR => {| width := 1350; height := 1080 |}
  end.

(** The nominal ratio named by each enum value, [(w, h)] of "w:h". *)
Definition nominalRatio (ratio : AspectRatio) : Z * Z :=
  match ratio with
  | PORTRAIT  => (9, 16)
  | LANDSCAPE => (16, 9)
  | SQUARE    => (1, 1)
  | FOUR_FIVE => (4, 5)
  | FIVE_FOUR => (5, 4)
  end%Z.

Record CropRect : Set := { sx : Q; sy : Q; sWidth : Q; sHeight : Q }.

(** What one tick of [renderFrame] does with the canvas. *)
Inductive Composite : Set :=
| SkipDraw                         (* [vw && vh] is falsy: nothing is drawn *)
| DrawImage (r : CropRect) (dw dh : Z)
                                   (* ctx.drawImage(video, sx, sy, sWidth, sHeight, 0, 0, dw, dh) *)
| DrawNonFinite.                   (* a division by zero fed the crop *)

(** The two arms of "Calculate Crop (Center-Center logic)", given the two
    ratios, in exact arithmetic; [cropRectDouble] below is the same code on
    doubles. *)
Definition cropRect (vw vh : Z) (videoRatio targetRatio : Q) : option CropRect :=
  if Qltb targetRatio videoRatio then
    (* Video is wider than target: Crop sides *)
    let sHeight := inject_Z vh in
    let sWidth := inject_Z vh * targetRatio in
    Some {| sx := (inject_Z vw - sWidth) / 2; sy := 0;
            sWidth := sWidth; sHeight := sHeight |}
  else
    (* Video is taller than target: Crop top/bottom *)
    let sWidth := inject_Z vw in
    match jsdiv (inject_Z vw) targetRatio with
    | None => None
    | Some sHeight =>
        Some {| sx := 0; sy := (inject_Z vh - sHeight) / 2;
                sWidth := sWidth; sHeight := sHeight |}
    end.

(** The drawing part of [renderFrame]: the guard [if (vw && vh)], the crop and
    the call of [drawImage]. *)
Definition composite (vw vh : Z) (target : TargetGeometry) : Composite :=
  if (negb (vw =? 0)%Z && negb (vh =? 0)%Z)%bool then
    match jsdiv (inject_Z vw) (inject_Z vh),
          jsdiv (inject_Z (width target)) (inject_Z (height target)) with
    | Some videoRatio, Some targetRatio =>
        match cropRect vw vh videoRatio targetRatio with
        | Some r => DrawImage r (width target) (height target)
        | None => DrawNonFinite
        end
    | _, _ => DrawNonFinite
    end
  else SkipDraw.


(** ** Clips *)

(** The [id] template strings, kept as their parts:
    [`clip-${Date.now()}-${iteration}-${index}`] and
    [`fallback-${iteration}-${i}`]. *)
Inductive ClipId : Set :=
| ServiceId (now : Z) (iteration : N) (index : nat)
| FallbackId (iteration : N) (index : nat).

Record GeneratedClip : Set := {
  id : ClipId;
  title : string;
  description : string;
  startTime : Q;          (* in seconds *)
  endTime : Q;            (* in seconds *)
  viralityScore : Z;
  tags : list string
}.

(** ** The renderer: [renderClip]

    [renderClip] builds a promise whose executor creates the media objects and
    installs event handlers; everything after that happens in those handlers.
    The embedding is a transition system: the closure variables that decide the
    control flow form [RenderState], the browser's callbacks are [Event]s, and
    every call the code makes on a browser object is recorded, in order, as an
    [Effect]. *)

Inductive MimeType : Set := VideoMp4 | VideoWebmH264 | VideoWebm.

(** A chunk is represented by its size. *)
Record Blob : Set := { blobParts : list N; blobType : MimeType }.

Inductive RenderError : Set :=
| NoCanvasContext      (* new Error("No canvas context") *)
| PlaybackError        (* the rejection reason of video.play() *)
| VideoLoadError       (* new Error("Video load error during render") *)
| SetUpException.      (* what a call of the executor threw *)

Inductive PromiseState : Set :=
| Pending
| Resolved (b : Blob)
| Rejected (e : RenderError).

(** [Stopping]: [stop()] was called and the recorder's [stop] event is queued. *)
Inductive RecorderState : Set := Inactive | Recording | Stopping.

(** What the runtime offers to one render. *)
Record Browser : Set := {
  has2dContext : bool;        (* canvas.getContext('2d') is not null *)
  supportsMp4 : bool;         (* MediaRecorder.isTypeSupported('video/mp4') *)
  supportsWebmH264 : bool     (* MediaRecorder.isTypeSupported('video/webm;codecs=h264') *)
}.

(** How "2. Setup Audio Processing" goes.  Its two calls stand in the
    executor of the promise, outside every [try]: what one of them throws
    rejects the promise. *)
Inductive AudioContextSetup : Set :=
| AudioContextReady     (* both calls return *)
| AudioContextThrows    (* new AudioContextClass() throws *)
| DestinationThrows.    (* audioCtx.createMediaStreamDestination() throws *)

(** How the [try] block of [video.onloadedmetadata] goes. *)
Inductive AudioSetup : Set :=
| SourceThrows      (* audioCtx.createMediaElementSource(video) throws *)
| ConnectThrows     (* source.connect(dest) throws *)
| NoAudioTrack      (* dest.stream.getAudioTracks()[0] is undefined *)
| AudioTrackOk.

(** The video element as one tick of [renderFrame] reads it. *)
Record VideoSnapshot : Set := {
  currentTime : Q;
  paused : bool;
  ended : bool;
  videoWidth : Z;
  videoHeight : Z
}.

Inductive Event : Set :=
| LoadedMetadata (a : AudioSetup)     (* video.onloadedmetadata *)
| CanPlay                             (* video.oncanplay *)
| Seeked (t : Q)                      (* video.onseeked, with video.currentTime *)
| PlayFulfilled (v : VideoSnapshot)   (* video.play() fulfils *)
| PlayRejected                        (* video.play() rejects *)
| AnimationFrame (v : VideoSnapshot)  (* the requested animation frame *)
| DataAvailable (size : N)            (* recorder.ondataavailable *)
| RecorderStopped                     (* recorder.onstop *)
| VideoError.                         (* video.onerror *)

Inductive UrlOwner : Set := SourceUrl | DownloadUrl.

Inductive Effect : Set :=
| CreateObjectURL (u : UrlOwner)
| RevokeObjectURL (u : UrlOwner)
| NewAudioContext
| CloseAudioContext
| CaptureStream
| NewMediaRecorder (m : MimeType)
| RecorderStart
| RecorderStop
| CreateMediaElementSource
| ConnectSource
| AddTrack
| SetCurrentTime (t : Q)
| VideoPlay
| VideoPause
| ClearVideoSrc
| CanvasDraw (c : Composite)
| OnProgress (v : option Q)
| RequestAnimationFrame
| CancelAnimationFrame
| ConsoleWarn (m : string)
| ConsoleError (m : string)
(* issued by downloadClip *)
| SetIsDownloading (b : bool)
| SetDownloadProgress (v : option Q)
| AnchorClick (b : Blob)
| Alert (m : string).

Record RenderState : Set := {
  promise : PromiseState;
  onloadedmetadata : bool;      (* the handler slots of the video element *)
  oncanplay : bool;
  onseeked : bool;
  onerror : bool;
  recorder : option RecorderState;    (* [None]: not constructed *)
  mimeType : MimeType;
  chunks : list N;
  playPending : bool;           (* video.play() was called, not yet settled *)
  frameScheduled : bool         (* a requested animation frame is outstanding *)
}.

Definition set_promise (p : PromiseState) (s : RenderState) : RenderState :=
  {| promise := p; onloadedmetadata := onloadedmetadata s;
     oncanplay := oncanplay s; onseeked := onseeked s; onerror := onerror s;
     recorder := recorder s; mimeType := mimeType s; chunks := chunks s;
     playPending := playPending s; frameScheduled := frameScheduled s |}.

Definition set_onloadedmetadata (b : bool) (s : RenderState) : RenderState :=
  {| promise := promise s; onloadedmetadata := b;
     oncanplay := oncanplay s; onseeked := onseeked s; onerror := onerror s;
     recorder := recorder s; mimeType := mimeType s; chunks := chunks s;
     playPending := playPending s; frameScheduled := frameScheduled s |}.

Definition set_oncanplay (b : bool) (s : RenderState) : RenderState :=
  {| promise := promise s; onloadedmetadata := onloadedmetadata s;
     oncanplay := b; onseeked := onseeked s; onerror := onerror s;
     recorder := recorder s; mimeType := mimeType s; chunks := chunks s;
     playPending := playPending s; frameScheduled := frameScheduled s |}.

Definition set_onseeked (b : bool) (s : RenderState) : RenderState :=
  {| promise := promise s; onloadedmetadata := onloadedmetadata s;
     oncanplay := oncanplay s; onseeked := b; onerror := onerror s;
     recorder := recorder s; mimeType := mimeType s; chunks := chunks s;
     playPending := playPending s; frameScheduled := frameScheduled s |}.

Definition set_onerror (b : bool) (s : RenderState) : RenderState :=
  {| promise := promise s; onloadedmetadata := onloadedmetadata s;
     oncanplay := oncanplay s; onseeked := onseeked s; onerror := b;
     recorder := recorder s; mimeType := mimeType s; chunks := chunks s;
     playPending := playPending s; frameScheduled := frameScheduled s |}.

Definition set_recorder (r : option RecorderState) (s : RenderState) : RenderState :=
  {| promise := promise s; onloadedmetadata := onloadedmetadata s;
     oncanplay := oncanplay s; onseeked := onseeked s; onerror := onerror s;
     recorder := r; mimeType := mimeType s; chunks := chunks s;
     playPending := playPending s; frameScheduled := frameScheduled s |}.

Definition set_mimeType (m : MimeType) (s : RenderState) : RenderState :=
  {| promise := promise s; onloadedmetadata := onloadedmetadata s;
     oncanplay := oncanplay s; onseeked := onseeked s; onerror := onerror s;
     recorder := recorder s; mimeType := m; chunks := chunks s;
     playPending := playPending s; frameScheduled := frameScheduled s |}.

Definition set_chunks (c : list N) (s : RenderState) : RenderState :=
  {| promise := promise s; onloadedmetadata := onloadedmetadata s;
     oncanplay := oncanplay s; onseeked := onseeked s; onerror := onerror s;
     recorder := recorder s; mimeType := mimeType s; chunks := c;
     playPending := playPending s; frameScheduled := frameScheduled s |}.

Definition set_playPending (b : bool) (s : RenderState) : RenderState :=
  {| promise := promise s; onloadedmetadata := onloadedmetadata s;
     oncanplay := oncanplay s; onseeked := onseeked s; onerror := onerror s;
     recorder := recorder s; mimeType := mimeType s; chunks := chunks s;
     playPending := b; frameScheduled := frameScheduled s |}.

Definition set_frameScheduled (b : bool) (s : RenderState) : RenderState :=
  {| promise := promise s; onloadedmetadata := onloadedmetadata s;
     oncanplay := oncanplay s; onseeked := onseeked s; onerror := onerror s;
     recorder := recorder s; mimeType := mimeType s; chunks := chunks s;
     playPending := playPending s; frameScheduled := b |}.

(** A piece of handler code: it updates the closure state and issues calls. *)
Definition Handler : Set := RenderState -> RenderState * list Effect.

Definition skip : Handler := fun s => (s, []).
Definition emit (e : Effect) : Handler := fun s => (s, [e]).
Definition modify (f : RenderState -> RenderState) : Handler := fun s => (f s, []).
Definition andThen (h1 h2 : Handler) : Handler :=
  fun s => let (s1, e1) := h1 s in let (s2, e2) := h2 s1 in (s2, e1 ++ e2).

Declare Scope handler_scope.
Delimit Scope handler_scope with handler.
Bind Scope handler_scope with Handler.
Notation "h1 ;; h2" := (andThen h1 h2)
  (at level 61, right associativity) : handler_scope.
Local Open Scope handler_scope.

(** [resolve] and [reject] of the promise: only the first call settles it. *)
Definition settle (p : PromiseState) : Handler :=
  modify (fun s => match promise s with
                   | Pending => set_promise p s
                   | _ => s
                   end).
Definition resolve (b : Blob) : Handler := settle (Resolved b).
Definition reject (e : RenderError) : Handler := settle (Rejected e).

(** [recorder.start()] and [recorder.stop()]. *)
Definition recorder_start : Handler :=
  emit RecorderStart ;;
  modify (fun s => match recorder s with
                   | Some Inactive => set_recorder (Some Recording) s
                   | _ => s
                   end).
Definition recorder_stop : Handler :=
  emit RecorderStop ;;
  modify (fun s => match recorder s with
                   | Some Recording => set_recorder (Some Stopping) s
                   | _ => s
                   end).

(** The canvas call of a tick, when the tick has one. *)
Definition draw (c : Composite) : Handler :=
  fun s => (s, match c with
               | SkipDraw => []
               | _ => [CanvasDraw c]
               end).

Definition audioWarning : string := "Audio capture setup failed:".
Definition playbackErrorMessage : string := "Playback error:".

(** "Check supported types". *)
Definition chooseMimeType (browser : Browser) (current : MimeType) : MimeType :=
  if negb (supportsMp4 browser) then
    if supportsWebmH264 browser then VideoWebmH264 else VideoWebm
  else current.

Definition clampProgress (x : Q) : Q := Qmin 99 (Qmax 0 x).

Section RenderClip.

(** The parameters of one call [renderClip(file, clip, ratio, onProgress)];
    [onProgress] is the [OnProgress] effect, and what the file decodes to
    arrives through the events. *)
Variable browser : Browser.
Variable clip : GeneratedClip.
Variable ratio : AspectRatio.

Let target : TargetGeometry := getTargetDimensions ratio.

(** The closure state before the executor runs ([let mimeType = 'video/mp4']
    is the declaration the source starts from). *)
Definition blank : RenderState :=
  {| promise := Pending; onloadedmetadata := false; oncanplay := false;
     onseeked := false; onerror := false; recorder := None;
     mimeType := VideoMp4; chunks := []; playPending := false;
     frameScheduled := false |}.

(** The body of [new Promise((resolve, reject) => ...)].  An exception that
    leaves it rejects the promise and ends it: nothing after the throwing
    call runs, so no handler is installed. *)
Definition executorWith (audio : AudioContextSetup) : Handler :=
  (* 1. Setup Elements *)
  emit (CreateObjectURL SourceUrl) ;;
  if has2dContext browser then
    (* 2. Setup Audio Processing *)
    match audio with
    | AudioContextThrows =>
        reject SetUpException
    | DestinationThrows =>
        emit NewAudioContext ;; reject SetUpException
    | AudioContextReady =>
        emit NewAudioContext ;;
        (* 3. Prepare MediaRecorder Stream *)
        emit CaptureStream ;;
        modify (set_onloadedmetadata true) ;;
        (fun s => modify (set_mimeType (chooseMimeType browser (mimeType s))) s) ;;
        (fun s => emit (NewMediaRecorder (mimeType s)) s) ;;
        modify (set_recorder (Some Inactive)) ;;
        (* 5. Start Sequence *)
        modify (set_oncanplay true) ;;
        modify (set_onseeked true) ;;
        modify (set_onerror true)
    end
  else
    reject NoCanvasContext.

(** The executor in a runtime that creates the audio context and its
    destination node. *)
Definition executor : Handler := executorWith AudioContextReady.

(** [video.onloadedmetadata]: the [catch] arm logs and nothing else. *)
Definition on_loadedmetadata (a : AudioSetup) : Handler :=
  match a with
  | SourceThrows =>
      emit (ConsoleWarn audioWarning)
  | ConnectThrows =>
      emit CreateMediaElementSource ;; emit (ConsoleWarn audioWarning)
  | NoAudioTrack =>
      emit CreateMediaElementSource ;; emit ConnectSource
  | AudioTrackOk =>
      emit CreateMediaElementSource ;; emit ConnectSource ;; emit AddTrack
  end.

(** [((video.currentTime - clip.startTime) / (clip.endTime - clip.startTime)) * 100] *)
Definition currentProgress (t : Q) : option Q :=
  match jsdiv (t - startTime clip) (endTime clip - startTime clip) with
  | Some q => Some (q * 100)
  | None => None
  end.

(** [onProgress(Math.min(99, Math.max(0, currentProgress)))].  When
    [clip.endTime - clip.startTime] is zero the quotient is [Infinity],
    [-Infinity] or [NaN], by the sign of the dividend: [Math.min(99, Infinity)]
    is 99, [Math.max(0, -Infinity)] is 0, and [NaN] ([None]) stays [NaN]. *)
Definition reportedProgress (t : Q) : option Q :=
  match currentProgress t with
  | Some p => Some (clampProgress p)
  | None =>
      if Qltb 0 (t - startTime clip) then Some 99
      else if Qltb (t - startTime clip) 0 then Some 0
      else None
  end.

(** One tick of the rendering loop. *)
Definition renderFrame (v : VideoSnapshot) : Handler :=
  if ((paused v || ended v) && Qgeb (currentTime v) (endTime clip))%bool then
    (* Check if we finished naturally *)
    recorder_stop ;; emit CancelAnimationFrame
  else
    (* Calculate Crop (Center-Center logic) *)
    draw (composite (videoWidth v) (videoHeight v) target) ;;
    (* Progress Update *)
    emit (OnProgress (reportedProgress (currentTime v))) ;;
    if Qgeb (currentTime v) (endTime clip) then
      (* Stop *)
      emit VideoPause ;; recorder_stop ;; emit CancelAnimationFrame
    else
      emit RequestAnimationFrame ;; modify (set_frameScheduled true).

Definition on_canplay : Handler :=
  modify (set_oncanplay false) ;;
  emit (SetCurrentTime (startTime clip)).

(** The distance is compared as the exact number; the source compares the
    double nearest to it ([seekAcceptedDouble]), which is 0.5 or more
    whenever the exact distance is, and below 0.5 whenever the exact distance
    is at most [largestBelowHalf]. *)
Definition on_seeked (t : Q) : Handler :=
  modify (set_onseeked false) ;;
  (* Ensure we are close to start time *)
  if Qltb (Qabs (t - startTime clip)) (1 # 2) then
    recorder_start ;;
    emit VideoPlay ;;
    modify (set_playPending true)
  else
    skip.

Definition on_play_rejected : Handler :=
  emit (ConsoleError playbackErrorMessage) ;; reject PlaybackError.

Definition on_dataavailable (size : N) : Handler :=
  if (0 <? size)%N then modify (fun s => set_chunks (chunks s ++ [size]) s)
  else skip.

Definition on_stop : Handler :=
  fun s =>
    let blob := {| blobParts := chunks s; blobType := mimeType s |} in
    ((* Cleanup *)
     emit ClearVideoSrc ;; emit CloseAudioContext ;; resolve blob) s.

Definition on_error : Handler := reject VideoLoadError.

(** The browser delivers an event: the handler installed for it runs, if
    there is one.  A recorder delivers data while it records and until its
    [stop] event; the [stop] event follows a call of [stop()], and a
    recording recorder also stops on its own (an error, or the end of its
    stream): [recorder.onstop] runs in both cases. *)
Definition step (ev : Event) : Handler :=
  fun s =>
    match ev with
    | LoadedMetadata a =>
        if onloadedmetadata s then on_loadedmetadata a s else skip s
    | CanPlay =>
        if oncanplay s then on_canplay s else skip s
    | Seeked t =>
        if onseeked s then on_seeked t s else skip s
    | PlayFulfilled v =>
        if playPending s
        then (modify (set_playPending false) ;; renderFrame v) s
        else skip s
    | PlayRejected =>
        if playPending s
        then (modify (set_playPending false) ;; on_play_rejected) s
        else skip s
    | AnimationFrame v =>
        if frameScheduled s
        then (modify (set_frameScheduled false) ;; renderFrame v) s
        else skip s
    | DataAvailable size =>
        match recorder s with
        | Some Recording | Some Stopping => on_dataavailable size s
        | _ => skip s
        end
    | RecorderStopped =>
        match recorder s with
        | Some Recording | Some Stopping =>
            (modify (set_recorder (Some Inactive)) ;; on_stop) s
        | _ => skip s
        end
    | VideoError =>
        if onerror s then on_error s else skip s
    end.

Fixpoint run (evs : list Event) : Handler :=
  match evs with
  | [] => skip
  | ev :: evs' => step ev ;; run evs'
  end.

(** One render: the executor, then the events the browser delivers. *)
Definition renderClipWith (audio : AudioContextSetup) (evs : list Event)
  : RenderState * list Effect :=
  (executorWith audio ;; run evs) blank.

(** One render in a runtime that creates the audio context and its
    destination node. *)
Definition renderClip (evs : list Event) : RenderState * list Effect :=
  renderClipWith AudioContextReady evs.

End RenderClip.

(** *** Reading a trace of effects *)

Fixpoint progressValues (effs : list Effect) : list (option Q) :=
  match effs with
  | [] => []
  | OnProgress v :: effs' => v :: progressValues effs'
  | _ :: effs' => progressValues effs'
  end.

Fixpoint draws (effs : list Effect) : list Composite :=
  match effs with
  | [] => []
  | CanvasDraw c :: effs' => c :: draws effs'
  | _ :: effs' => draws effs'
  end.

Definition occurrences (p : Effect -> bool) (effs : list Effect) : nat :=
  List.length (filter p effs).

Definition isCreateSourceUrl (e : Effect) : bool :=
  match e with CreateObjectURL SourceUrl => true | _ => false end.
Definition isRevokeSourceUrl (e : Effect) : bool :=
  match e with RevokeObjectURL SourceUrl => true | _ => false end.
Definition isNewAudioContext (e : Effect) : bool :=
  match e with NewAudioContext => true | _ => false end.
Definition isCloseAudioContext (e : Effect) : bool :=
  match e with CloseAudioContext => true | _ => false end.
Definition isRecorderStart (e : Effect) : bool :=
  match e with RecorderStart => true | _ => false end.
Definition isRecorderStop (e : Effect) : bool :=
  match e with RecorderStop => true | _ => false end.
Definition isAddTrack (e : Effect) : bool :=
  match e with AddTrack => true | _ => false end.
Definition isVideoPlay (e : Effect) : bool :=
  match e with VideoPlay => true | _ => false end.

(** The playback positions the ticks of a run are offered. *)
Fixpoint frameTimes (evs : list Event) : list Q :=
  match evs with
  | [] => []
  | PlayFulfilled v :: evs' => currentTime v :: frameTimes evs'
  | AnimationFrame v :: evs' => currentTime v :: frameTimes evs'
  | _ :: evs' => frameTimes evs'
  end.

(** ** The caller: [downloadClip]

    For a non-null [originalFile].  The progress callback handed to
    [renderClip] is [(prog) => setDownloadProgress(prog)]; the code after
    [await] runs when the promise settles. *)

Definition renderingFailedMessage : string := "Rendering failed:".
Definition retryMessage : string := "Could not generate clip. Please try again.".

Definition progressCallback (effs : list Effect) : list Effect :=
  flat_map (fun e => match e with
                     | OnProgress v => [e; SetDownloadProgress v]
                     | _ => [e]
                     end) effs.

(** The [try] continuation, the [catch] arm and the [finally] arm. *)
Definition afterAwait (p : PromiseState) : list Effect :=
  match p with
  | Pending => []
  | Resolved blob =>
      [CreateObjectURL DownloadUrl; AnchorClick blob; RevokeObjectURL DownloadUrl;
       SetIsDownloading false; SetDownloadProgress (Some 0)]
  | Rejected _ =>
      [ConsoleError renderingFailedMessage; Alert retryMessage;
       SetIsDownloading false; SetDownloadProgress (Some 0)]
  end.

(** The continuation runs once, at the step that settles the promise. *)
Definition whenSettled (before after : PromiseState) : list Effect :=
  match before with
  | Pending => afterAwait after
  | _ => []
  end.

Section DownloadClip.

Variable browser : Browser.
Variable clip : GeneratedClip.
Variable ratio : AspectRatio.

Fixpoint await (evs : list Event) (s : RenderState) : list Effect :=
  match evs with
  | [] => []
  | ev :: evs' =>
      let (s1, e1) := step clip ratio ev s in
      progressCallback e1 ++ whenSettled (promise s) (promise s1)
        ++ await evs' s1
  end.

Definition downloadClipWith (audio : AudioContextSetup) (evs : list Event)
  : list Effect :=
  [SetIsDownloading true; SetDownloadProgress (Some 0)] ++
  let (s0, e0) := executorWith browser audio blank in
  progressCallback e0 ++ whenSettled Pending (promise s0) ++ await evs s0.

(** [downloadClip] in a runtime that creates the audio context and its
    destination node. *)
Definition downloadClip (evs : list Event) : list Effect :=
  downloadClipWith AudioContextReady evs.

End DownloadClip.

Fixpoint downloadProgress (effs : list Effect) : list (option Q) :=
  match effs with
  | [] => []
  | SetDownloadProgress v :: effs' => v :: downloadProgress effs'
  | _ :: effs' => downloadProgress effs'
  end.

(** ** The clip-suggestion call: [analyzeVideoForClips]

    The request itself ([ai.models.generateContent]) is the environment: the
    embedding takes what came back.  [genre], [lengthPreference] and
    [userPrompt] only go into the prompt text. *)

(** [Omit<GeneratedClip, 'id'>], an element of the parsed response. *)
Record RawClip : Set := {
  rawTitle : string;
  rawDescription : string;
  rawStartTime : Q;
  rawEndTime : Q;
  rawViralityScore : Z;
  rawTags : list string
}.

Inductive ServiceResponse : Set :=
| ServiceThrows                 (* generateContent rejects *)
| EmptyText                     (* response.text is falsy: "No response from AI" is thrown *)
| ParseThrows                   (* JSON.parse throws, or the value has no map *)
| Parsed (data : list RawClip).

Fixpoint mapi_from {A B : Type} (f : nat -> A -> B) (start : nat) (l : list A) : list B :=
  match l with
  | [] => []
  | x :: l' => f start x :: mapi_from f (S start) l'
  end.

(** [array.map((x, index) => ...)] *)
Definition mapi {A B : Type} (f : nat -> A -> B) (l : list A) : list B :=
  mapi_from f 0 l.

Definition decimal (z : Z) : string := NilZero.string_of_int (Z.to_int z).

Definition fallbackDescription : string :=
  "Auto-detected highlight based on audio levels and motion.".

(** The sums and products are those of exact arithmetic; the doubles of the
    source hold them exactly as long as they stay below 2^53. *)
Definition fallbackClips (fileName : string) (duration : Q) (iteration : N)
  : list GeneratedClip :=
  let segment : Z := Qfloor (duration / inject_Z (5 + Z.of_N iteration)) in
  map (fun i : nat =>
         {| id := FallbackId iteration i;
            title := ("Part " ++ decimal (Z.of_nat i + 1) ++ " - " ++ fileName
                      ++ " (Gen " ++ decimal (Z.of_N iteration) ++ ")")%string;
            description := fallbackDescription;
            startTime := inject_Z (Z.of_nat i * segment + 10 * Z.of_N iteration);
            endTime := inject_Z (Z.of_nat i * segment + 40 * Z.of_N iteration);
            viralityScore := 85;
            tags := ["auto"; "highlight"]%string |})
      (seq 0 4).

(** [now index] is what [Date.now()] answers while element [index] is built. *)
Definition analyzeVideoForClips (response : ServiceResponse) (now : nat -> Z)
    (fileName : string) (videoDuration : Q) (iteration : N)
  : list GeneratedClip :=
  match response with
  | Parsed data =>
      (* Add IDs and validate timestamps *)
      mapi (fun index clip =>
              {| id := ServiceId (now index) iteration index;
                 title := rawTitle clip;
                 description := rawDescription clip;
                 startTime := Qmin (Qmax 0 (rawStartTime clip)) (videoDuration - 5);
                 endTime := Qmin (rawEndTime clip) videoDuration;
                 viralityScore := rawViralityScore clip;
                 tags := rawTags clip |})
           data
  | ServiceThrows | EmptyText | ParseThrows =>
      (* Fallback if API fails *)
      fallbackClips fileName videoDuration iteration
  end.

(** The bounds a clip is to have for a video of [videoDuration] seconds. *)
Definition boundsValid (videoDuration : Q) (c : GeneratedClip) : bool :=
  Qle_bool 0 (startTime c) && Qle_bool (startTime c) (videoDuration - 5)
  && Qle_bool (endTime c) videoDuration.

(** ** Doubles

    Rocq's primitive floats are the binary64 numbers of IEEE 754 with
    rounding to nearest, ties to even: the arithmetic of a JavaScript number.
    The expressions of the source whose rounding matters are written out on
    them. *)

(** A pixel dimension as a number; exact below 2^53. *)
Definition toDouble (z : Z) : float := PrimFloat.of_uint63 (Uint63.of_Z z).

(** The rational that a finite double stands for, in lowest terms. *)
Definition exactValue (x : float) : option Q :=
  match Prim2SF x with
  | S754_zero _ => Some 0
  | S754_finite sign m e =>
      Some (Qred ((if sign then -1 else 1) * inject_Z (Z.pos m) * 2 ^ e))
  | S754_infinity _ => None
  | S754_nan => None
  end.

Record CropRectDouble : Set :=
  { dsx : float; dsy : float; dsWidth : float; dsHeight : float }.

(** "Calculate Crop (Center-Center logic)" inside the guard [if (vw && vh)],
    operation by operation. *)
Definition cropRectDouble (vw vh targetW targetH : Z) : CropRectDouble :=
  let videoRatio := (toDouble vw / toDouble vh)%float in
  let targetRatio := (toDouble targetW / toDouble targetH)%float in
  if (targetRatio <? videoRatio)%float then
    (* Video is wider than target: Crop sides *)
    let sHeight := toDouble vh in
    let sWidth := (toDouble vh * targetRatio)%float in
    {| dsx := ((toDouble vw - sWidth) / 2)%float; dsy := 0%float;
       dsWidth := sWidth; dsHeight := sHeight |}
  else
    (* Video is taller than target: Crop top/bottom *)
    let sWidth := toDouble vw in
    let sHeight := (toDouble vw / targetRatio)%float in
    {| dsx := 0%float; dsy := ((toDouble vh - sHeight) / 2)%float;
       dsWidth := sWidth; dsHeight := sHeight |}.

(** [Math.max(0, x)] and [Math.min(99, x)]. *)
Definition mathMax0 (x : float) : float :=
  if is_nan x then x else if (0 <? x)%float then x else 0%float.
Definition mathMin99 (x : float) : float :=
  if is_nan x then x else if (x <? 99)%float then x else 99%float.

(** [Math.min(99, Math.max(0,
      ((video.currentTime - clip.startTime) / (clip.endTime - clip.startTime)) * 100))] *)
Definition reportedProgressDouble (currentTime startTime endTime : float) : float :=
  mathMin99
    (mathMax0 (((currentTime - startTime) / (endTime - startTime)) * 100)%float).

(** [Math.abs(video.currentTime - clip.startTime) < 0.5] *)
Definition seekAcceptedDouble (currentTime startTime : float) : bool :=
  (abs (currentTime - startTime) <? 0.5)%float.

(** The largest double below 0.5, [0.5 - 2^-54].  The difference of two
    doubles is computed as the double nearest to their exact difference, so
    an exact distance of at most this much is below 0.5 in the source
    too. *)
Definition largestBelowHalf : Q := 9007199254740991 # 18014398509481984.

(** ** Runs used as examples *)

Definition chrome : Browser :=
  {| has2dContext := true; supportsMp4 := true; supportsWebmH264 := true |}.

(** A clip from second 10 to second 20. *)
Definition sampleClip : GeneratedClip :=
  {| id := FallbackId 1 0; title := "Part 1"; description := fallbackDescription;
     startTime := 10; endTime := 20; viralityScore := 85;
     tags := ["auto"; "highlight"]%string |}.

(** A playing 1920x1080 source at position [t]. *)
Definition frameAt (t : Q) : VideoSnapshot :=
  {| currentTime := t; paused := false; ended := false;
     videoWidth := 1920; videoHeight := 1080 |}.

(** A render that runs to its end: seek, three ticks, one chunk, stop. *)
Definition fullRun : list Event :=
  [CanPlay; Seeked 10; PlayFulfilled (frameAt 10); AnimationFrame (frameAt 15);
   AnimationFrame (frameAt 20); DataAvailable 1000; RecorderStopped].

Definition isVideoError (ev : Event) : bool :=
  match ev with VideoError => true | _ => false end.

(** The renderer after a seek that was not accepted: the recorder was never
    started, no playback and no tick is outstanding, and [onseeked] is gone. *)
Definition stalled (s : RenderState) : Prop :=
  recorder s = Some Inactive /\ playPending s = false /\
  frameScheduled s = false /\ onseeked s = false /\ onerror s = true.

(** The renderer when the executor has thrown before it installed a handler:
    no handler, no pending callback and no recorder, so that an event runs no
    code. *)
Definition idle (s : RenderState) : Prop :=
  onloadedmetadata s = false /\ oncanplay s = false /\ onseeked s = false /\
  onerror s = false /\ playPending s = false /\ frameScheduled s = false /\
  recorder s = None.

(** ** Measures on the renderer's state *)

(** How often [recorder.start()] can still be called: [video.onseeked] is the
    only caller and removes itself. *)
Definition startsLeft (s : RenderState) : nat :=
  if onseeked s then 1 else 0.

(** How often the loop can still end: a tick is outstanding, or can still
    become so. *)
Definition ticksLeft (s : RenderState) : nat :=
  (if onseeked s then 1 else 0) + (if playPending s then 1 else 0)
  + (if frameScheduled s then 1 else 0).

(** How often [recorder.onstop] can still run. *)
Definition stopsLeft (s : RenderState) : nat :=
  (if onseeked s then 1 else 0)
  + match recorder s with
    | Some Recording | Some Stopping => 1
    | _ => 0
    end.

Definition isRequestAnimationFrame (e : Effect) : bool :=
  match e with RequestAnimationFrame => true | _ => false end.
Definition isClearVideoSrc (e : Effect) : bool :=
  match e with ClearVideoSrc => true | _ => false end.

(** Lower bounds: what must already have been called for the state to be as
    it is. *)
Definition hasStarted (s : RenderState) : nat :=
  match recorder s, promise s with
  | Some Recording, _ | Some Stopping, _ | _, Resolved _ => 1
  | _, _ => 0
  end.

Definition hasResolved (s : RenderState) : nat :=
  match promise s with
  | Resolved _ => 1
  | _ => 0
  end.

(** *** Reading what [downloadClip] did *)

Fixpoint downloads (effs : list Effect) : list Blob :=
  match effs with
  | [] => []
  | AnchorClick b :: effs' => b :: downloads effs'
  | _ :: effs' => downloads effs'
  end.

Definition isAlert (e : Effect) : bool :=
  match e with Alert _ => true | _ => false end.
Definition isDownloadingOff (e : Effect) : bool :=
  match e with SetIsDownloading false => true | _ => false end.
Definition isCreateDownloadUrl (e : Effect) : bool :=
  match e with CreateObjectURL DownloadUrl => true | _ => false end.
Definition isRevokeDownloadUrl (e : Effect) : bool :=
  match e with RevokeObjectURL DownloadUrl => true | _ => false end.

(** The calls only [downloadClip] makes, never a handler of [renderClip]. *)
Definition isCallerEffect (e : Effect) : bool :=
  match e with
  | SetIsDownloading _ | SetDownloadProgress _ | AnchorClick _ | Alert _
  | CreateObjectURL DownloadUrl | RevokeObjectURL DownloadUrl => true
  | _ => false
  end.

Definition isAnchorClick (e : Effect) : bool :=
  match e with AnchorClick _ => true | _ => false end.

(** ** [downloadClip]: the name of the saved file

    A Rocq character stands for one UTF-16 code unit below 256; titles with
    other code units are outside this model (the pattern replaces each of
    them by an underscore like any other non-alphanumeric unit). *)

From Stdlib Require Import Ascii.

(** What [/[^a-z0-9]/gi] leaves alone: ASCII letters of both cases and
    digits. *)
Definition isAsciiAlnum (c : ascii) : bool :=
  let n := N_of_ascii c in
  ((48 <=? n) && (n <=? 57) || (65 <=? n) && (n <=? 90)
   || (97 <=? n) && (n <=? 122))%N%bool.

(** [toLowerCase] on one code unit below 256: A-Z, and the Latin-1 capitals
    U+00C0..U+00DE without the multiplication sign U+00D7. *)
Definition toLowerCaseUnit (c : ascii) : ascii :=
  let n := N_of_ascii c in
  if ((65 <=? n) && (n <=? 90)
      || (192 <=? n) && (n <=? 222) && negb (n =? 215))%N%bool
  then ascii_of_N (n + 32)
  else c.

Fixpoint mapUnits (f : ascii -> ascii) (s : string) : string :=
  match s with
  | EmptyString => EmptyString
  | String c s' => String (f c) (mapUnits f s')
  end.

(** [selectedClip.title.replace(/[^a-z0-9]/gi, '_').toLowerCase()] *)
Definition safeTitle (title : string) : string :=
  mapUnits toLowerCaseUnit
    (mapUnits (fun c => if isAsciiAlnum c then c else "_"%char) title).

(** [`pipel_${safeTitle}.mp4`] *)
Definition downloadName (title : string) : string :=
  ("pipel_" ++ safeTitle title ++ ".mp4")%string.

(** A lower-case ASCII letter, a digit or the underscore. *)
Definition isSafeUnit (c : ascii) : bool :=
  let n := N_of_ascii c in
  ((48 <=? n) && (n <=? 57) || (97 <=? n) && (n <=? 122) || (n =? 95))%N%bool.

(** ** The preview player: [handleTimeUpdate]

    [t] is [video.currentTime] when the [timeupdate] event arrives.  After
    [video.currentTime = selectedClip.startTime] the element reports the new
    position at once, so the progress of a tick that resets is computed from
    the start time. *)



(** ** The application shell: [App]

    The React state of [App], the ref [processingInterval] and the local
    variables that the pending callbacks of [handleAnalyze] and
    [handleGenerateMore] close over.  State setters take effect before the
    next event.  The model follows one analysis and one "generate more" at a
    time: a new one is accepted only when none is pending. *)

Module App.

Inductive ClipLength : Set := AUTO | SHORT | MEDIUM | LONG.

Inductive Genre : Set :=
| PODCAST | WEBINAR | COMEDY | VLOG | REVIEW | GAMING | LIVE | QNA
| MOTIVATIONAL | OTHERS.

Record File : Set := { name : string; size : N }.

Record VideoConfig : Set := {
  file : option File;
  length : ClipLength;
  genre : Genre;
  aspectRatio : AspectRatio;
  prompt : string
}.

(** [currentSegment]: 1 is the upload form, 2 the preview. *)
Inductive Segment : Set := Segment1 | Segment2.

(** The texts of [timeRemaining]. *)
Inductive TimeRemaining : Set :=
| NoEstimate                (* '' *)
| Calculating               (* 'Calculating...' *)
| SecondsLeft (n : Z)       (* `${secondsLeft} seconds left` *)
| Complete.                 (* 'Complete' *)

(** The locals of a call of [handleAnalyze] that is still waiting. *)
Record Analysis : Set := {
  videoConfig : VideoConfig;
  duration : Q;
  awaitingDuration : bool     (* [getVideoDuration] has not settled *)
}.

(** The locals of a call of [handleGenerateMore] that is still waiting. *)
Record More : Set := {
  moreConfig : VideoConfig;
  moreDuration : Q;
  nextIteration : N
}.

Record State : Set := {
  currentSegment : Segment;
  config : option VideoConfig;
  clips : list GeneratedClip;
  videoDuration : Q;
  isProcessing : bool;
  progress : Q;
  timeRemaining : TimeRemaining;
  isGeneratingMore : bool;
  iteration : N;
  intervalRunning : bool;     (* the interval in [processingInterval] is live *)
  currentProgress : Q;        (* the local of [handleAnalyze] the interval updates *)
  analysis : option Analysis;
  timeoutPending : bool;      (* the 500 ms timer of [handleAnalyze] *)
  more : option More
}.

Definition initial : State :=
  {| currentSegment := Segment1; config := None; clips := [];
     videoDuration := 600; isProcessing := false; progress := 0;
     timeRemaining := NoEstimate; isGeneratingMore := false; iteration := 1;
     intervalRunning := false; currentProgress := 0; analysis := None;
     timeoutPending := false; more := None |}.

Definition fileNameOf (cfg : VideoConfig) : string :=
  match file cfg with
  | Some f => name f
  | None => "Untitled Video"
  end.

Definition totalSimulatedTime : Q := 5000.
Definition intervalTime : Q := 100.
Definition steps : Q := totalSimulatedTime / intervalTime.

(** [handleAnalyze], up to its first [await]. *)
Definition handleAnalyze (videoConfig : VideoConfig) (s : State) : State :=
  {| currentSegment := currentSegment s;
     config := Some videoConfig;
     clips := clips s;
     videoDuration := videoDuration s;
     isProcessing := true;
     progress := 0;
     timeRemaining := Calculating;
     isGeneratingMore := isGeneratingMore s;
     iteration := 1;
     intervalRunning := true;
     currentProgress := 0;
     analysis := Some {| videoConfig := videoConfig; duration := 600;
                         awaitingDuration :=
                           match file videoConfig with
                           | Some _ => true
                           | None => false
                           end |};
     timeoutPending := timeoutPending s;
     more := more s |}.

(** The callback of [setInterval]. *)
Definition intervalTick (s : State) : State :=
  let raised := currentProgress s + 100 / steps in
  let remainingSteps := steps - raised / (100 / steps) in
  let secondsLeft := Qceiling ((remainingSteps * intervalTime) / 1000) in
  (* Hold at 90% until API returns *)
  let held := if Qgeb raised 90 then 90 else raised in
  {| currentSegment := currentSegment s;
     config := config s;
     clips := clips s;
     videoDuration := videoDuration s;
     isProcessing := isProcessing s;
     progress := held;
     timeRemaining := SecondsLeft secondsLeft;
     isGeneratingMore := isGeneratingMore s;
     iteration := iteration s;
     intervalRunning := intervalRunning s;
     currentProgress := held;
     analysis := analysis s;
     timeoutPending := timeoutPending s;
     more := more s |}.

(** [getVideoDuration] settles: [Some d] is [video.duration], [None] the
    rejection that leaves the default of 600. *)
Definition durationSettled (d : option Q) (a : Analysis) (s : State) : State :=
  {| currentSegment := currentSegment s;
     config := config s;
     clips := clips s;
     videoDuration := match d with
                      | Some d => d
                      | None => videoDuration s
                      end;
     isProcessing := isProcessing s;
     progress := progress s;
     timeRemaining := timeRemaining s;
     isGeneratingMore := isGeneratingMore s;
     iteration := iteration s;
     intervalRunning := intervalRunning s;
     currentProgress := currentProgress s;
     analysis := Some {| videoConfig := videoConfig a;
                         duration := match d with
                                     | Some d => d
                                     | None => duration a
                                     end;
                         awaitingDuration := false |};
     timeoutPending := timeoutPending s;
     more := more s |}.

(** [handleAnalyze] after [await analyzeVideoForClips(...)].  The call of the
    service cannot reject, so the [catch] arm is never taken. *)
Definition analysisAnswered (response : ServiceResponse) (now : nat -> Z)
    (a : Analysis) (s : State) : State :=
  let generatedClips :=
    analyzeVideoForClips response now (fileNameOf (videoConfig a)) (duration a) 1 in
  {| currentSegment := currentSegment s;
     config := config s;
     clips := generatedClips;
     videoDuration := videoDuration s;
     isProcessing := isProcessing s;
     progress := 100;
     timeRemaining := Complete;
     isGeneratingMore := isGeneratingMore s;
     iteration := iteration s;
     intervalRunning := intervalRunning s;
     currentProgress := currentProgress s;
     analysis := None;
     timeoutPending := true;
     more := more s |}.

(** The callback of [setTimeout(..., 500)]. *)
Definition timeoutFired (s : State) : State :=
  {| currentSegment := Segment2;
     config := config s;
     clips := clips s;
     videoDuration := videoDuration s;
     isProcessing := false;
     progress := progress s;
     timeRemaining := timeRemaining s;
     isGeneratingMore := isGeneratingMore s;
     iteration := iteration s;
     intervalRunning := false;
     currentProgress := currentProgress s;
     analysis := analysis s;
     timeoutPending := false;
     more := more s |}.

Definition handleCancel (s : State) : State :=
  {| currentSegment := currentSegment s;
     config := None;
     clips := clips s;
     videoDuration := videoDuration s;
     isProcessing := false;
     progress := 0;
     timeRemaining := timeRemaining s;
     isGeneratingMore := isGeneratingMore s;
     iteration := iteration s;
     intervalRunning := false;
     currentProgress := currentProgress s;
     analysis := analysis s;
     timeoutPending := timeoutPending s;
     more := more s |}.

(** [handleGenerateMore], up to its [await]. *)
Definition handleGenerateMore (s : State) : State :=
  match config s with
  | None => s
  | Some cfg =>
      let nextIteration := (iteration s + 1)%N in
      {| currentSegment := currentSegment s;
         config := config s;
         clips := clips s;
         videoDuration := videoDuration s;
         isProcessing := isProcessing s;
         progress := progress s;
         timeRemaining := timeRemaining s;
         isGeneratingMore := true;
         iteration := nextIteration;
         intervalRunning := intervalRunning s;
         currentProgress := currentProgress s;
         analysis := analysis s;
         timeoutPending := timeoutPending s;
         more := Some {| moreConfig := cfg; moreDuration := videoDuration s;
                         nextIteration := nextIteration |} |}
  end.

(** [handleGenerateMore] after its [await], with its [finally]. *)
Definition moreAnswered (response : ServiceResponse) (now : nat -> Z)
    (m : More) (s : State) : State :=
  let newClips :=
    analyzeVideoForClips response now (fileNameOf (moreConfig m))
      (moreDuration m) (nextIteration m) in
  {| currentSegment := currentSegment s;
     config := config s;
     clips := newClips ++ clips s;
     videoDuration := videoDuration s;
     isProcessing := isProcessing s;
     progress := progress s;
     timeRemaining := timeRemaining s;
     isGeneratingMore := false;
     iteration := iteration s;
     intervalRunning := intervalRunning s;
     currentProgress := currentProgress s;
     analysis := analysis s;
     timeoutPending := timeoutPending s;
     more := None |}.

(** [onBack] of the preview. *)
Definition onBack (s : State) : State :=
  {| currentSegment := Segment1;
     config := config s;
     clips := [];
     videoDuration := videoDuration s;
     isProcessing := isProcessing s;
     progress := progress s;
     timeRemaining := timeRemaining s;
     isGeneratingMore := isGeneratingMore s;
     iteration := iteration s;
     intervalRunning := intervalRunning s;
     currentProgress := currentProgress s;
     analysis := analysis s;
     timeoutPending := timeoutPending s;
     more := more s |}.

Inductive Event : Set :=
| Analyze (cfg : VideoConfig)       (* "Generate Clips" *)
| IntervalTick
| DurationLoaded (d : Q)
| DurationFailed
| ServiceAnswered (response : ServiceResponse) (now : nat -> Z)
| TimeoutFired
| Cancel                            (* "Cancel Analysis" *)
| GenerateMore                      (* "+ Generate More" *)
| MoreAnswered (response : ServiceResponse) (now : nat -> Z)
| Back.                             (* "Back to Upload" *)

(** What is on screen. *)
Inductive View : Set :=
| UploadForm
| ProcessingCard
| PreviewShown
| PreviewFails    (* PreviewSegment mounts with no clip: [clips[0]] is
                     undefined and reading [selectedClip.id] throws *)
| Nothing.        (* neither segment is rendered *)

Definition view (s : State) : View :=
  match currentSegment s, config s with
  | Segment1, _ => if isProcessing s then ProcessingCard else UploadForm
  | Segment2, Some _ =>
      match clips s with
      | [] => PreviewFails
      | _ :: _ => PreviewShown
      end
  | Segment2, None => Nothing
  end.

(** An event reaches its handler when the control that raises it is on screen
    (and enabled), or when the callback is pending. *)
Definition dispatch (ev : Event) (s : State) : State :=
  match ev with
  | Analyze cfg =>
      match view s, file cfg, analysis s, timeoutPending s with
      | UploadForm, Some _, None, false => handleAnalyze cfg s
      | _, _, _, _ => s
      end
  | IntervalTick =>
      if intervalRunning s then intervalTick s else s
  | DurationLoaded d =>
      match analysis s with
      | Some a => if awaitingDuration a then durationSettled (Some d) a s else s
      | None => s
      end
  | DurationFailed =>
      match analysis s with
      | Some a => if awaitingDuration a then durationSettled None a s else s
      | None => s
      end
  | ServiceAnswered response now =>
      match analysis s with
      | Some a =>
          if awaitingDuration a then s else analysisAnswered response now a s
      | None => s
      end
  | TimeoutFired =>
      if timeoutPending s then timeoutFired s else s
  | Cancel =>
      match view s with
      | ProcessingCard => handleCancel s
      | _ => s
      end
  | GenerateMore =>
      match view s, isGeneratingMore s, more s with
      | PreviewShown, false, None => handleGenerateMore s
      | _, _, _ => s
      end
  | MoreAnswered response now =>
      match more s with
      | Some m => moreAnswered response now m s
      | None => s
      end
  | Back =>
      match view s with
      | PreviewShown => onBack s
      | _ => s
      end
  end.

Definition run (evs : list Event) (s : State) : State :=
  fold_left (fun s ev => dispatch ev s) evs s.

(** [n] callbacks of the interval in a row. *)
Definition ticks (n : nat) : list Event := repeat IntervalTick n.

End App.

(** The iteration a clip id was made in. *)
Definition idIteration (i : ClipId) : N :=
  match i with
  | ServiceId _ iteration _ => iteration
  | FallbackId iteration _ => iteration
  end.

Definition idIndex (i : ClipId) : nat :=
  match i with
  | ServiceId _ _ index => index
  | FallbackId _ index => index
  end.

(** * Properties *)

(** ** Numbers *)

Lemma Qltb_lt (a b : Q) : Qltb a b = true <-> a < b.
Proof.
  unfold Qltb. rewrite negb_true_iff, <- not_true_iff_false, Qle_bool_iff.
  split; [apply Qnot_le_lt | apply Qlt_not_le].
Qed.

Lemma Qltb_ge (a b : Q) : Qltb a b = false <-> b <= a.
Proof.
  unfold Qltb. rewrite negb_false_iff. apply Qle_bool_iff.
Qed.

Lemma Qgeb_le (a b : Q) : Qgeb a b = true <-> b <= a.
Proof. apply Qle_bool_iff. Qed.

Lemma Qgeb_lt (a b : Q) : Qgeb a b = false <-> a < b.
Proof.
  unfold Qgeb. rewrite <- not_true_iff_false, Qle_bool_iff.
  split; [apply Qnot_le_lt | apply Qlt_not_le].
Qed.

Lemma jsdiv_nonzero (a b : Q) : ~ b == 0 -> jsdiv a b = Some (a / b).
Proof.
  intros Hb. unfold jsdiv. destruct (Qeq_bool b 0) eqn:E; [|reflexivity].
  apply Qeq_bool_iff in E. contradiction.
Qed.

Lemma inject_Z_pos (z : Z) : (0 < z)%Z -> 0 < inject_Z z.
Proof. intros H. change 0 with (inject_Z 0). now rewrite <- Zlt_Qlt. Qed.

Lemma Qdiv_pos (a b : Q) : 0 < a -> 0 < b -> 0 < a / b.
Proof.
  intros Ha Hb. apply Qlt_shift_div_l; [assumption|]. lra.
Qed.

(** [a < b / c] and [a * c < b] say the same for a positive [c]. *)
Lemma Qlt_div_iff (a b c : Q) : 0 < c -> (a < b / c <-> a * c < b).
Proof.
  intros Hc. split; intros H.
  - apply Qmult_lt_r with (z := / c); [now apply Qinv_lt_0_compat|].
    rewrite <- Qmult_assoc, Qmult_inv_r by lra.
    unfold Qdiv in H. lra.
  - now apply Qlt_shift_div_l.
Qed.

Lemma Qle_div_iff (a b c : Q) : 0 < c -> (b / c <= a <-> b <= a * c).
Proof.
  intros Hc. split; intros H.
  - apply Qnot_lt_le. intros H'. apply (Qlt_div_iff a b c Hc) in H'. lra.
  - apply Qnot_lt_le. intros H'. apply (Qlt_div_iff a b c Hc) in H'. lra.
Qed.

(** ** Doubles *)

Example largestBelowHalf_is_a_double :
  exactValue (next_down 0.5) = Some largestBelowHalf /\
  largestBelowHalf < 1 # 2.
Proof. split; reflexivity. Qed.

Lemma float_ltb_leb (a b : float) :
  (a <? b)%float = true -> (a <=? b)%float = true.
Proof.
  rewrite ltb_spec, leb_spec. unfold SFltb, SFleb.
  destruct (SFcompare _ _) as [[]|]; congruence.
Qed.

(** What the source hands to [onProgress], as the double it is: [NaN], or a
    number from 0 to 99. *)
Lemma reportedProgressDouble_bounds (currentTime startTime endTime : float) :
  let r := reportedProgressDouble currentTime startTime endTime in
  is_nan r = true \/ ((0 <=? r)%float = true /\ (r <=? 99)%float = true).
Proof.
  unfold reportedProgressDouble.
  set (x := ((currentTime - startTime) / (endTime - startTime) * 100)%float).
  cbv zeta. unfold mathMax0.
  destruct (is_nan x) eqn:Hn.
  - left. unfold mathMin99. now rewrite Hn.
  - right. destruct (0 <? x)%float eqn:H0.
    + unfold mathMin99. rewrite Hn.
      destruct (x <? 99)%float eqn:H1.
      * split; now apply float_ltb_leb.
      * split; reflexivity.
    + split; reflexivity.
Qed.

(** Where the doubles of the source and exact arithmetic part.  At the
    double nearest to 10.1, in a clip from second 10 to second 20, the source
    reports 9007199254740959 / 2^53; its formula in exact arithmetic, at the
    same position, gives another number. *)
Example progress_in_doubles :
  let t := 5685794529555251 # 562949953421312 in
  exactValue 0x1.4333333333333p+3 = Some t /\
  exactValue (reportedProgressDouble 0x1.4333333333333p+3 10 20)
    = Some (9007199254740959 # 9007199254740992) /\
  exists q, reportedProgress sampleClip t = Some q /\
            ~ q == 9007199254740959 # 9007199254740992.
Proof.
  cbv zeta. repeat split; try reflexivity.
  eexists. split; [reflexivity|]. vm_compute. discriminate.
Qed.

(** The doubles nearest to 0.6 and to 0.1 are less than half a second apart,
    and further apart than [largestBelowHalf]: the distance the source
    computes is 0.5 and it does not accept the seek. *)
Example seek_tolerance_in_doubles :
  let t := 5404319552844595 # 9007199254740992 in
  let start := 3602879701896397 # 36028797018963968 in
  exactValue 0x1.3333333333333p-1 = Some t /\
  exactValue 0x1.999999999999ap-4 = Some start /\
  Qabs (t - start) < 1 # 2 /\
  largestBelowHalf < Qabs (t - start) /\
  seekAcceptedDouble 0x1.3333333333333p-1 0x1.999999999999ap-4 = false.
Proof. cbv zeta. repeat split. Qed.

(** A clip of length zero: the quotient of the source is an infinity or
    [NaN], and the clamp gives 0 before the start, 99 after it and [NaN] at
    it. *)
Example zero_length_clip_progress :
  let c := {| id := FallbackId 1 0; title := ""; description := "";
              startTime := 10; endTime := 10; viralityScore := 0; tags := [] |} in
  (reportedProgress c 5 = Some 0 /\
   exactValue (reportedProgressDouble 5 10 10) = Some 0) /\
  (reportedProgress c 15 = Some 99 /\
   exactValue (reportedProgressDouble 15 10 10) = Some 99) /\
  (reportedProgress c 10 = None /\
   is_nan (reportedProgressDouble 10 10 10) = true).
Proof. cbv zeta. repeat split. Qed.

(** ** Geometry resolver *)

Lemma getTargetDimensions_positive (ratio : AspectRatio) :
  (0 < width (getTargetDimensions ratio))%Z /\
  (0 < height (getTargetDimensions ratio))%Z.
Proof. destruct ratio; simpl; lia. Qed.

(** For positive dimensions the tick draws, and the rectangle is the one of
    the arm the ratios select. *)
Lemma composite_draws (vw vh : Z) (target : TargetGeometry) :
  (0 < vw)%Z -> (0 < vh)%Z -> (0 < width target)%Z -> (0 < height target)%Z ->
  let W := inject_Z vw in
  let H := inject_Z vh in
  let targetRatio := inject_Z (width target) / inject_Z (height target) in
  composite vw vh target =
  DrawImage
    (if Qltb targetRatio (W / H)
     then {| sx := (W - H * targetRatio) / 2; sy := 0;
             sWidth := H * targetRatio; sHeight := H |}
     else {| sx := 0; sy := (H - W / targetRatio) / 2;
             sWidth := W; sHeight := W / targetRatio |})
    (width target) (height target).
Proof.
  intros Hvw Hvh Htw Hth W H targetRatio.
  pose proof (inject_Z_pos _ Hvw) as HW.
  pose proof (inject_Z_pos _ Hvh) as HH.
  pose proof (inject_Z_pos _ Htw) as HTW.
  pose proof (inject_Z_pos _ Hth) as HTH.
  assert (HR : 0 < targetRatio) by now apply Qdiv_pos.
  unfold composite.
  replace (vw =? 0)%Z with false by (symmetry; apply Z.eqb_neq; lia).
  replace (vh =? 0)%Z with false by (symmetry; apply Z.eqb_neq; lia).
  simpl negb. simpl andb. cbv iota.
  rewrite !jsdiv_nonzero by lra.
  fold W H targetRatio. unfold cropRect. fold W H.
  destruct (Qltb targetRatio (W / H)); [reflexivity|].
  rewrite jsdiv_nonzero by lra. reflexivity.
Qed.

(** C1, as stated, fails: the 9:16 target is 1080 wide and 1920 high, so its
    longer edge is 1920 pixels, not 1080. *)
Lemma getTargetDimensions_portrait_long_edge :
  Z.max (width (getTargetDimensions PORTRAIT))
        (height (getTargetDimensions PORTRAIT)) <> 1080%Z.
Proof. simpl. lia. Qed.

(** C1 (amended): for every value of the AspectRatio enum,
    [getTargetDimensions] returns the fixed pair of its table, both edges are
    positive, the pair has exactly the ratio the enum value names, and the
    shorter edge of the pair is 1080 pixels. *)
Theorem getTargetDimensions_short_edge_1080 (ratio : AspectRatio) :
  let g := getTargetDimensions ratio in
  In (width g, height g)
     [(1080, 1920); (1920, 1080); (1080, 1080); (1080, 1350); (1350, 1080)]%Z /\
  (0 < width g)%Z /\ (0 < height g)%Z /\
  (width g * snd (nominalRatio ratio) = height g * fst (nominalRatio ratio))%Z /\
  Z.min (width g) (height g) = 1080%Z.
Proof.
  destruct ratio; simpl; repeat split; try lia; tauto.
Qed.

(** C6, as stated, fails on the numbers of the source.  A 1366x768 source is
    relatively wider than the 4:5 target (1080x1350), and the crop keeps the
    full height and starts at the top; but its width, which the source
    computes in doubles as [vh * (targetW / targetH)], is
    1351079888211149 / 2^41 = 614.4000000000001...: this is not
    [768 * 1080 / 1350 = 3072 / 5], and not the double nearest to it
    either. *)
Lemma cropRect_in_doubles_not_exact :
  let r := cropRectDouble 1366 768 1080 1350 in
  inject_Z 1080 / inject_Z 1350 < inject_Z 1366 / inject_Z 768 /\
  exactValue (dsHeight r) = Some 768 /\
  exactValue (dsy r) = Some 0 /\
  exactValue (dsWidth r) = Some (1351079888211149 # 2199023255552) /\
  ~ 1351079888211149 # 2199023255552 == 768 * 1080 / 1350 /\
  (dsWidth r =? toDouble 768 * toDouble 1080 / toDouble 1350)%float = false.
Proof.
  cbv zeta. repeat split; try reflexivity. vm_compute. discriminate.
Qed.

(** C6 (amended): in exact rational arithmetic, for positive source and
    target dimensions, when the source is relatively wider than the target
    the crop keeps the full source height, is
    [sourceH * target.width / target.height] wide, starts at the top
    ([sy = 0]) and leaves equal margins left and right; otherwise it keeps
    the full source width, starts at the left ([sx = 0]) and leaves equal
    margins above and below. *)
Theorem cropRect_centered (vw vh : Z) (target : TargetGeometry)
  (Hvw : (0 < vw)%Z) (Hvh : (0 < vh)%Z)
  (Htw : (0 < width target)%Z) (Hth : (0 < height target)%Z) :
  let W := inject_Z vw in
  let H := inject_Z vh in
  let tw := inject_Z (width target) in
  let th := inject_Z (height target) in
  exists r,
    composite vw vh target = DrawImage r (width target) (height target) /\
    (tw / th < W / H ->
       sHeight r == H /\ sWidth r == H * tw / th /\ sy r == 0 /\
       sx r == (W - sWidth r) / 2 /\ sx r == W - (sx r + sWidth r)) /\
    (~ tw / th < W / H ->
       sWidth r == W /\ sHeight r == W / (tw / th) /\ sx r == 0 /\
       sy r == (H - sHeight r) / 2 /\ sy r == H - (sy r + sHeight r)).
Proof.
  intros W H tw th.
  pose proof (composite_draws vw vh target Hvw Hvh Htw Hth) as Hc.
  cbv zeta in Hc. fold W H tw th in Hc.
  assert (HTH : 0 < th) by now apply inject_Z_pos.
  assert (HTW : 0 < tw) by now apply inject_Z_pos.
  eexists. split; [exact Hc|].
  destruct (Qltb (tw / th) (W / H)) eqn:E.
  - apply Qltb_lt in E. split; [|intros HN; contradiction].
    intros _. simpl. repeat split; try reflexivity; field; lra.
  - apply Qltb_ge in E. split; [intros HL; lra|].
    intros _. simpl. repeat split; try reflexivity; field; split; lra.
Qed.

Lemma cropRect_centered_witness :
  exists r,
    composite 1920 1080 (getTargetDimensions PORTRAIT) = DrawImage r 1080 1920 /\
    sHeight r == 1080 /\ sWidth r == 1215 # 2 /\ sy r == 0 /\ sx r == 2625 # 4.
Proof.
  destruct (cropRect_centered 1920 1080 (getTargetDimensions PORTRAIT))
    as [r [Hr [Hwide _]]]; try (simpl; lia).
  exists r. split; [exact Hr|].
  destruct Hwide as [H1 [H2 [H3 [H4 _]]]]; [reflexivity|].
  repeat split; try assumption.
  - rewrite H2. reflexivity.
  - rewrite H4, H2. reflexivity.
Defined.

(** C10: for positive source and target dimensions the crop rectangle of a
    tick lies inside the source frame. *)
Theorem cropRect_within_source (vw vh : Z) (target : TargetGeometry)
  (Hvw : (0 < vw)%Z) (Hvh : (0 < vh)%Z)
  (Htw : (0 < width target)%Z) (Hth : (0 < height target)%Z) :
  exists r,
    composite vw vh target = DrawImage r (width target) (height target) /\
    0 <= sx r /\ 0 <= sy r /\
    sx r + sWidth r <= inject_Z vw /\
    sy r + sHeight r <= inject_Z vh.
Proof.
  pose proof (composite_draws vw vh target Hvw Hvh Htw Hth) as Hc.
  cbv zeta in Hc.
  pose proof (inject_Z_pos _ Hvw) as HW.
  pose proof (inject_Z_pos _ Hvh) as HH.
  pose proof (inject_Z_pos _ Htw) as HTW.
  pose proof (inject_Z_pos _ Hth) as HTH.
  set (W := inject_Z vw) in *. set (H := inject_Z vh) in *.
  set (R := inject_Z (width target) / inject_Z (height target)) in *.
  assert (HR : 0 < R) by now apply Qdiv_pos.
  eexists. split; [exact Hc|].
  destruct (Qltb R (W / H)) eqn:E; simpl.
  - apply Qltb_lt in E. apply (proj1 (Qlt_div_iff R W H HH)) in E.
    rewrite (Qmult_comm R H) in E.
    set (X := H * R) in *. repeat split; try lra.
    + apply Qle_shift_div_l; lra.
    + assert (Hh : (W - X) / 2 == (W - X) * (1 # 2)) by (field).
      rewrite Hh. lra.
  - apply Qltb_ge in E. apply (proj1 (Qle_div_iff R W H HH)) in E.
    assert (HX : W / R <= H).
    { apply (proj2 (Qle_div_iff H W R HR)). rewrite Qmult_comm. exact E. }
    set (X := W / R) in *. repeat split; try lra.
    + apply Qle_shift_div_l; lra.
    + assert (Hh : (H - X) / 2 == (H - X) * (1 # 2)) by (field).
      rewrite Hh. lra.
Qed.

Lemma cropRect_within_source_witness :
  exists r,
    composite 1080 1920 (getTargetDimensions LANDSCAPE) = DrawImage r 1920 1080 /\
    0 <= sx r /\ 0 <= sy r /\
    sx r + sWidth r <= 1080 /\ sy r + sHeight r <= 1920.
Proof.
  apply (cropRect_within_source 1080 1920 (getTargetDimensions LANDSCAPE));
    simpl; lia.
Defined.

Lemma inject_Z_nonzero (z : Z) : z <> 0%Z -> ~ inject_Z z == 0.
Proof.
  intros Hz E. apply Hz. apply (proj1 (inject_Z_injective z 0)). exact E.
Qed.

(** With target dimensions out of the table, no division of a tick has a zero
    divisor. *)
Lemma composite_never_divides_by_zero (ratio : AspectRatio) (vw vh : Z) :
  composite vw vh (getTargetDimensions ratio) <> DrawNonFinite.
Proof.
  destruct (getTargetDimensions_positive ratio) as [Htw Hth].
  pose proof (inject_Z_pos _ Htw) as HTW.
  pose proof (inject_Z_pos _ Hth) as HTH.
  unfold composite.
  destruct (vw =? 0)%Z eqn:Ew; [discriminate|].
  destruct (vh =? 0)%Z eqn:Eh; [discriminate|].
  apply Z.eqb_neq in Eh. simpl negb. simpl andb. cbv iota.
  rewrite (jsdiv_nonzero _ (inject_Z vh)) by now apply inject_Z_nonzero.
  rewrite (jsdiv_nonzero _ (inject_Z (height _))) by lra.
  set (R := inject_Z (width _) / inject_Z (height _)).
  assert (HR : 0 < R) by now apply Qdiv_pos.
  unfold cropRect. destruct (Qltb R _); [discriminate|].
  rewrite jsdiv_nonzero by lra. discriminate.
Qed.

Lemma composite_unknown_dimensions (vw vh : Z) (target : TargetGeometry) :
  (vw = 0 \/ vh = 0)%Z -> composite vw vh target = SkipDraw.
Proof.
  intros [-> | ->]; unfold composite; [reflexivity|].
  now rewrite andb_false_r.
Qed.

(** *** The renderer *)

Ltac unfold_handlers :=
  unfold renderFrame, on_loadedmetadata, on_canplay, on_seeked,
    on_play_rejected, on_dataavailable, on_stop, on_error,
    recorder_start, recorder_stop, resolve, reject, settle, draw,
    andThen, emit, modify, skip in *.

(** C9: on a tick whose snapshot has a zero width or a zero height nothing
    is drawn, and on no tick at all does the drawing go through a division by
    zero. *)
Theorem renderFrame_skips_unknown_dimensions
    (clip : GeneratedClip) (ratio : AspectRatio) (v : VideoSnapshot)
    (s : RenderState) :
  ((videoWidth v = 0 \/ videoHeight v = 0)%Z ->
     composite (videoWidth v) (videoHeight v) (getTargetDimensions ratio) = SkipDraw /\
     draws (snd (renderFrame clip ratio v s)) = []) /\
  ~ In DrawNonFinite (draws (snd (renderFrame clip ratio v s))).
Proof.
  pose proof (composite_never_divides_by_zero ratio (videoWidth v) (videoHeight v))
    as Hfin.
  split.
  - intros Hz. pose proof (composite_unknown_dimensions _ _ (getTargetDimensions ratio) Hz) as Hs.
    split; [exact Hs|].
    unfold_handlers. rewrite Hs.
    destruct ((paused v || ended v) && _)%bool; [reflexivity|].
    destruct (Qgeb _ _); reflexivity.
  - unfold_handlers.
    destruct ((paused v || ended v) && _)%bool; [simpl; tauto|].
    destruct (composite _ _ _) eqn:Ec; destruct (Qgeb _ _); simpl;
      try tauto; try (intros [Hd | []]; discriminate); congruence.
Qed.

Lemma renderFrame_skips_unknown_dimensions_witness :
  draws (snd (renderFrame sampleClip PORTRAIT
                {| currentTime := 12; paused := false; ended := false;
                   videoWidth := 0; videoHeight := 0 |}
                blank)) = [].
Proof.
  apply (renderFrame_skips_unknown_dimensions sampleClip PORTRAIT
           {| currentTime := 12; paused := false; ended := false;
              videoWidth := 0; videoHeight := 0 |}).
  left. reflexivity.
Defined.

Ltac step_cases :=
  repeat (simpl;
          match goal with
          | |- context [if ?b then _ else _] => destruct b eqn:?
          | |- context [match ?x with Some _ => _ | None => _ end] =>
              destruct x eqn:?
          | |- context [match ?x with Pending => _ | _ => _ end] =>
              destruct x eqn:?
          | |- context [match ?x with Inactive => _ | _ => _ end] =>
              destruct x eqn:?
          | |- context [match ?x with SourceThrows => _ | _ => _ end] =>
              destruct x eqn:?
          end).

Lemma andThen_run (h1 h2 : Handler) (s : RenderState) :
  (h1 ;; h2) s = (fst (h2 (fst (h1 s))), snd (h1 s) ++ snd (h2 (fst (h1 s)))).
Proof. unfold andThen. destruct (h1 s) as [s1 e1]. simpl. now destruct (h2 s1). Qed.

Section RenderClipFacts.

Variable browser : Browser.
Variable clip : GeneratedClip.
Variable ratio : AspectRatio.

Lemma run_cons (ev : Event) (evs : list Event) (s : RenderState) :
  run clip ratio (ev :: evs) s =
  (fst (run clip ratio evs (fst (step clip ratio ev s))),
   snd (step clip ratio ev s) ++ snd (run clip ratio evs (fst (step clip ratio ev s)))).
Proof. simpl run. apply andThen_run. Qed.

Lemma run_app (evs1 evs2 : list Event) (s : RenderState) :
  run clip ratio (evs1 ++ evs2) s =
  (fst (run clip ratio evs2 (fst (run clip ratio evs1 s))),
   snd (run clip ratio evs1 s) ++ snd (run clip ratio evs2 (fst (run clip ratio evs1 s)))).
Proof.
  revert s. induction evs1 as [|ev evs1 IH]; intros s.
  - simpl. now destruct (run clip ratio evs2 s).
  - rewrite <- app_comm_cons, !run_cons, IH. simpl. now rewrite app_assoc.
Qed.

Lemma renderClip_run (evs : list Event) :
  renderClip browser clip ratio evs =
  (fst (run clip ratio evs (fst (executor browser blank))),
   snd (executor browser blank) ++ snd (run clip ratio evs (fst (executor browser blank)))).
Proof. unfold renderClip, renderClipWith, executor. apply andThen_run. Qed.

(** The state and the calls of the executor. *)
Lemma executor_with_context :
  has2dContext browser = true ->
  executor browser blank =
  ({| promise := Pending; onloadedmetadata := true; oncanplay := true;
      onseeked := true; onerror := true; recorder := Some Inactive;
      mimeType := chooseMimeType browser VideoMp4; chunks := [];
      playPending := false; frameScheduled := false |},
   [CreateObjectURL SourceUrl; NewAudioContext; CaptureStream;
    NewMediaRecorder (chooseMimeType browser VideoMp4)]).
Proof. intros H. unfold executor, executorWith. rewrite H. reflexivity. Qed.

Lemma executor_without_context :
  has2dContext browser = false ->
  executor browser blank =
  ({| promise := Rejected NoCanvasContext; onloadedmetadata := false;
      oncanplay := false; onseeked := false; onerror := false;
      recorder := None; mimeType := VideoMp4; chunks := [];
      playPending := false; frameScheduled := false |},
   [CreateObjectURL SourceUrl]).
Proof. intros H. unfold executor, executorWith. rewrite H. reflexivity. Qed.

(** No handler reinstalls or removes [onloadedmetadata]. *)
Lemma step_onloadedmetadata (ev : Event) (s : RenderState) :
  onloadedmetadata (fst (step clip ratio ev s)) = onloadedmetadata s.
Proof.
  destruct s; destruct ev; unfold step; unfold_handlers; simpl;
    step_cases; reflexivity.
Qed.

Lemma run_onloadedmetadata (evs : list Event) (s : RenderState) :
  onloadedmetadata (fst (run clip ratio evs s)) = onloadedmetadata s.
Proof.
  revert s. induction evs as [|ev evs IH]; intros s; [reflexivity|].
  rewrite run_cons. simpl. now rewrite IH, step_onloadedmetadata.
Qed.

End RenderClipFacts.

Lemma occurrences_app (p : Effect -> bool) (l1 l2 : list Effect) :
  occurrences p (l1 ++ l2) = (occurrences p l1 + occurrences p l2)%nat.
Proof. unfold occurrences. now rewrite filter_app, length_app. Qed.

(** *** The promise settles at most once *)

Section Promise.

Variable clip : GeneratedClip.
Variable ratio : AspectRatio.

Lemma step_settled (ev : Event) (s : RenderState) :
  promise s <> Pending -> promise (fst (step clip ratio ev s)) = promise s.
Proof.
  intros Hp. destruct s as [p ? ? ? ? ? ? ? ? ?]. simpl in Hp.
  destruct p; [congruence| |];
    destruct ev; unfold step; unfold_handlers; step_cases; reflexivity.
Qed.

Lemma run_settled (evs : list Event) (s : RenderState) :
  promise s <> Pending -> promise (fst (run clip ratio evs s)) = promise s.
Proof.
  revert s. induction evs as [|ev evs IH]; intros s Hp; [reflexivity|].
  rewrite run_cons. simpl. rewrite IH; rewrite step_settled; auto.
Qed.

End Promise.

(** *** Seek tolerance *)

Section SeekTolerance.

Variable clip : GeneratedClip.
Variable ratio : AspectRatio.

(** A seek that lands half a second or more away leaves the promise as it
    was and starts nothing. *)
Lemma on_seeked_outside_tolerance (t : Q) (s : RenderState) :
  1 # 2 <= Qabs (t - startTime clip) ->
  onseeked s = true ->
  step clip ratio (Seeked t) s = (set_onseeked false s, []).
Proof.
  intros Htol Hs. unfold step. rewrite Hs. unfold on_seeked.
  apply Qltb_ge in Htol. rewrite Htol. reflexivity.
Qed.

Lemma stalled_step (ev : Event) (s : RenderState) :
  stalled s ->
  stalled (fst (step clip ratio ev s)) /\
  promise (fst (step clip ratio ev s)) =
    (if isVideoError ev
     then match promise s with Pending => Rejected VideoLoadError | p => p end
     else promise s) /\
  occurrences isRecorderStart (snd (step clip ratio ev s)) = 0%nat /\
  occurrences isVideoPlay (snd (step clip ratio ev s)) = 0%nat.
Proof.
  intros (Hr & Hp & Hf & Hs & He).
  destruct s as [p ? ? ? ? ? ? ? ? ?]. simpl in *. subst.
  unfold stalled.
  destruct ev; unfold step; unfold_handlers; step_cases; auto 10.
Qed.

Lemma stalled_run (evs : list Event) (s : RenderState) :
  stalled s -> promise s = Pending ->
  promise (fst (run clip ratio evs s)) =
    (if existsb isVideoError evs then Rejected VideoLoadError else Pending) /\
  occurrences isRecorderStart (snd (run clip ratio evs s)) = 0%nat /\
  occurrences isVideoPlay (snd (run clip ratio evs s)) = 0%nat.
Proof.
  revert s. induction evs as [|ev evs IH]; intros s Hst Hp; [now simpl|].
  destruct (stalled_step ev s Hst) as (Hst1 & Hp1 & Hr1 & Hv1).
  rewrite run_cons. cbn [fst snd]. rewrite !occurrences_app, Hr1, Hv1.
  rewrite Hp in Hp1. simpl existsb.
  destruct (isVideoError ev).
  - simpl orb. split.
    + rewrite run_settled; rewrite Hp1; [reflexivity | discriminate].
    + clear IH. revert Hst1.
      generalize (fst (step clip ratio ev s)). clear.
      induction evs as [|ev evs IH]; intros s Hst; [now simpl|].
      destruct (stalled_step ev s Hst) as (Hst1 & _ & Hr1 & Hv1).
      rewrite run_cons. cbn [snd]. rewrite !occurrences_app, Hr1, Hv1.
      now apply IH.
  - simpl orb. now apply IH.
Qed.

End SeekTolerance.

(** C2 (what the code does): when the seek lands half a second or more from
    [clip.startTime], [renderClip] neither starts the recorder nor starts
    playback, and whatever the browser delivers afterwards the promise is
    never resolved and never rejected for the seek: it stays pending, unless a
    later [error] event of the video rejects it with the video-load error. *)
Theorem seeked_outside_tolerance_never_reported
    (browser : Browser) (clip : GeneratedClip) (ratio : AspectRatio)
    (a : AudioSetup) (t : Q) (evs : list Event)
    (Hctx : has2dContext browser = true)
    (Htol : 1 # 2 <= Qabs (t - startTime clip)) :
  let r := renderClip browser clip ratio
             (LoadedMetadata a :: CanPlay :: Seeked t :: evs) in
  promise (fst r) =
    (if existsb isVideoError evs then Rejected VideoLoadError else Pending) /\
  occurrences isRecorderStart (snd r) = 0%nat /\
  occurrences isVideoPlay (snd r) = 0%nat.
Proof.
  intros r. subst r. rewrite renderClip_run, (executor_with_context browser Hctx).
  cbn [fst snd].
  rewrite run_cons.
  set (s1 := fst (step clip ratio (LoadedMetadata a) _)).
  set (e1 := snd (step clip ratio (LoadedMetadata a) _)).
  assert (Hs1 : s1 = {| promise := Pending; onloadedmetadata := true;
                        oncanplay := true; onseeked := true; onerror := true;
                        recorder := Some Inactive;
                        mimeType := chooseMimeType browser VideoMp4; chunks := [];
                        playPending := false; frameScheduled := false |})
    by (subst s1; destruct a; reflexivity).
  assert (He1 : occurrences isRecorderStart e1 = 0%nat /\
                occurrences isVideoPlay e1 = 0%nat)
    by (subst e1; destruct a; split; reflexivity).
  clearbody s1 e1. subst s1. destruct He1 as [He1 He1'].
  rewrite run_cons.
  change (step clip ratio CanPlay ?s) with (on_canplay clip s).
  unfold on_canplay. rewrite andThen_run. unfold modify, emit. cbn [fst snd].
  rewrite run_cons, on_seeked_outside_tolerance by (assumption || reflexivity).
  cbn [fst snd].
  destruct (stalled_run clip ratio evs
              (set_onseeked false
                 (set_oncanplay false
                    {| promise := Pending; onloadedmetadata := true;
                       oncanplay := true; onseeked := true; onerror := true;
                       recorder := Some Inactive;
                       mimeType := chooseMimeType browser VideoMp4; chunks := [];
                       playPending := false; frameScheduled := false |})))
    as (Hp & Hr & Hv); [unfold stalled; simpl; auto | reflexivity |].
  split; [exact Hp|].
  rewrite !occurrences_app, !He1, !He1', !Hr, !Hv. split; reflexivity.
Qed.

(** The failing input of C2: start at second 10, seek lands at 10.5. *)
Lemma seeked_outside_tolerance_never_reported_witness :
  let r := renderClip chrome sampleClip PORTRAIT
             [LoadedMetadata AudioTrackOk; CanPlay; Seeked (21 # 2)] in
  promise (fst r) = Pending /\
  occurrences isRecorderStart (snd r) = 0%nat /\
  occurrences isVideoPlay (snd r) = 0%nat.
Proof.
  apply (seeked_outside_tolerance_never_reported
           chrome sampleClip PORTRAIT AudioTrackOk (21 # 2) []).
  - reflexivity.
  - vm_compute. discriminate.
Defined.

(** *** Resources *)

Section Resources.

Variable clip : GeneratedClip.
Variable ratio : AspectRatio.

(** No handler creates or revokes an object URL. *)
Lemma step_object_url (ev : Event) (s : RenderState) :
  occurrences isCreateSourceUrl (snd (step clip ratio ev s)) = 0%nat /\
  occurrences isRevokeSourceUrl (snd (step clip ratio ev s)) = 0%nat.
Proof.
  destruct s; destruct ev; unfold step; unfold_handlers; step_cases;
    try (split; reflexivity);
    destruct (composite _ _ _); split; reflexivity.
Qed.

Lemma run_object_url (evs : list Event) (s : RenderState) :
  occurrences isCreateSourceUrl (snd (run clip ratio evs s)) = 0%nat /\
  occurrences isRevokeSourceUrl (snd (run clip ratio evs s)) = 0%nat.
Proof.
  revert s. induction evs as [|ev evs IH]; intros s; [now simpl|].
  rewrite run_cons. cbn [snd]. rewrite !occurrences_app.
  destruct (step_object_url ev s) as [-> ->].
  destruct (IH (fst (step clip ratio ev s))) as [-> ->]. now split.
Qed.

(** The audio context is closed by [recorder.onstop] and by nothing else. *)
Lemma step_close_audio_context (ev : Event) (s : RenderState) :
  occurrences isCloseAudioContext (snd (step clip ratio ev s)) =
  match ev, recorder s with
  | RecorderStopped, Some Recording | RecorderStopped, Some Stopping => 1%nat
  | _, _ => 0%nat
  end.
Proof.
  destruct s; destruct ev; unfold step; unfold_handlers; step_cases;
    try reflexivity; try (destruct (composite _ _ _); reflexivity).
Qed.

End Resources.

(** C3 (what the code does): the object URL created for the source is revoked
    on no path at all, and on the failure path opened by the video's [error]
    event the promise is rejected while the audio context stays open and, had
    the capture begun, the recorder is never stopped. *)
Theorem renderClip_leaks_resources :
  (forall browser clip ratio evs,
     let r := renderClip browser clip ratio evs in
     occurrences isCreateSourceUrl (snd r) = 1%nat /\
     occurrences isRevokeSourceUrl (snd r) = 0%nat) /\
  (let r := renderClip chrome sampleClip PORTRAIT
              [LoadedMetadata AudioTrackOk; VideoError] in
   promise (fst r) = Rejected VideoLoadError /\
   occurrences isNewAudioContext (snd r) = 1%nat /\
   occurrences isCloseAudioContext (snd r) = 0%nat) /\
  (let r := renderClip chrome sampleClip PORTRAIT
              [LoadedMetadata AudioTrackOk; CanPlay; Seeked 10;
               PlayFulfilled (frameAt 10); VideoError;
               AnimationFrame (frameAt 15)] in
   promise (fst r) = Rejected VideoLoadError /\
   recorder (fst r) = Some Recording /\
   occurrences isRecorderStart (snd r) = 1%nat /\
   occurrences isRecorderStop (snd r) = 0%nat /\
   occurrences isCloseAudioContext (snd r) = 0%nat) /\
  (let r := renderClip {| has2dContext := false; supportsMp4 := true;
                          supportsWebmH264 := true |} sampleClip PORTRAIT [] in
   promise (fst r) = Rejected NoCanvasContext /\
   occurrences isCreateSourceUrl (snd r) = 1%nat /\
   occurrences isRevokeSourceUrl (snd r) = 0%nat).
Proof.
  split; [|repeat split; reflexivity].
  intros browser clip ratio evs r. subst r. rewrite renderClip_run. cbn [snd].
  rewrite !occurrences_app.
  destruct (run_object_url clip ratio evs (fst (executor browser blank)))
    as [-> ->].
  destruct (has2dContext browser) eqn:Hctx.
  - rewrite (executor_with_context browser Hctx). now split.
  - rewrite (executor_without_context browser Hctx). now split.
Qed.

(** *** Audio routing *)

Section AudioRouting.

Variable clip : GeneratedClip.
Variable ratio : AspectRatio.

(** [video.onloadedmetadata] changes nothing the control flow reads. *)
Lemma step_loadedmetadata_state (a : AudioSetup) (s : RenderState) :
  fst (step clip ratio (LoadedMetadata a) s) = s.
Proof.
  unfold step. destruct (onloadedmetadata s); destruct a; reflexivity.
Qed.

(** When the [try] block throws, the handler warns and adds no track. *)
Lemma step_loadedmetadata_throws (a : AudioSetup) (s : RenderState) :
  a = SourceThrows \/ a = ConnectThrows ->
  onloadedmetadata s = true ->
  let effs := snd (step clip ratio (LoadedMetadata a) s) in
  In (ConsoleWarn audioWarning) effs /\
  Forall (fun e => e = ConsoleWarn audioWarning \/ e = CreateMediaElementSource) effs.
Proof.
  intros Ha Hs. unfold step. rewrite Hs.
  destruct Ha as [-> | ->]; simpl; split; auto 6.
Qed.

End AudioRouting.

(** Inside the [try] block of [video.onloadedmetadata] an audio failure is
    not fatal: when [createMediaElementSource] or [connect] throws, the
    handler only logs a warning, and the render goes on exactly as the same
    run without that event (same promise, recorder, chunks and pending
    callbacks, same calls before and after); no audio track is attached by
    it, and the promise is not rejected by it. *)
Theorem audio_failure_not_fatal
    (browser : Browser) (clip : GeneratedClip) (ratio : AspectRatio)
    (pre post : list Event) (a : AudioSetup)
    (Hctx : has2dContext browser = true)
    (Ha : a = SourceThrows \/ a = ConnectThrows) :
  let failed := renderClip browser clip ratio (pre ++ LoadedMetadata a :: post) in
  let without := renderClip browser clip ratio (pre ++ post) in
  fst failed = fst without /\
  exists before warned after,
    snd without = before ++ after /\
    snd failed = before ++ warned ++ after /\
    In (ConsoleWarn audioWarning) warned /\
    Forall (fun e => e = ConsoleWarn audioWarning \/ e = CreateMediaElementSource)
           warned.
Proof.
  intros failed without. subst failed without.
  rewrite !renderClip_run, !run_app.
  set (s0 := fst (executor browser blank)).
  set (s1 := fst (run clip ratio pre s0)).
  rewrite run_cons. cbn [fst snd].
  rewrite step_loadedmetadata_state. split; [reflexivity|].
  exists (snd (executor browser blank) ++ snd (run clip ratio pre s0)),
         (snd (step clip ratio (LoadedMetadata a) s1)),
         (snd (run clip ratio post s1)).
  assert (Hs1 : onloadedmetadata s1 = true).
  { subst s1 s0. rewrite run_onloadedmetadata.
    now rewrite (executor_with_context browser Hctx). }
  destruct (step_loadedmetadata_throws clip ratio a s1 Ha Hs1) as [Hin Hall].
  repeat split; try assumption.
  - now rewrite app_assoc.
  - now rewrite !app_assoc.
Qed.

(** A render whose audio setup throws and that still resolves with its blob,
    without any audio track. *)
Lemma audio_failure_not_fatal_witness :
  let failed := renderClip chrome sampleClip PORTRAIT
                  (LoadedMetadata SourceThrows :: fullRun) in
  promise (fst failed)
    = Resolved {| blobParts := [1000%N]; blobType := VideoMp4 |} /\
  In (ConsoleWarn audioWarning) (snd failed) /\
  occurrences isAddTrack (snd failed) = 0%nat.
Proof.
  destruct (audio_failure_not_fatal chrome sampleClip PORTRAIT [] fullRun
              SourceThrows eq_refl (or_introl eq_refl))
    as [Hstate _].
  cbv zeta. simpl app in Hstate. rewrite Hstate.
  repeat split; vm_compute; auto 10.
Defined.

(** *** Audio set-up in the executor *)

Section SetUpFailure.

Variable clip : GeneratedClip.
Variable ratio : AspectRatio.

Lemma step_idle (ev : Event) (s : RenderState) :
  idle s -> step clip ratio ev s = (s, []).
Proof.
  intros (H1 & H2 & H3 & H4 & H5 & H6 & H7).
  destruct ev; unfold step; rewrite ?H1, ?H2, ?H3, ?H4, ?H5, ?H6, ?H7;
    reflexivity.
Qed.

Lemma run_idle (evs : list Event) (s : RenderState) :
  idle s -> run clip ratio evs s = (s, []).
Proof.
  intros H. induction evs as [|ev evs IH]; [reflexivity|].
  rewrite run_cons, (step_idle ev s H). cbn [fst snd]. now rewrite IH.
Qed.

Lemma await_idle (evs : list Event) (s : RenderState) :
  idle s -> await clip ratio evs s = [].
Proof.
  intros H. induction evs as [|ev evs IH]; [reflexivity|].
  simpl await. rewrite (step_idle ev s H), IH.
  now destruct (promise s).
Qed.

End SetUpFailure.

(** C8 (what the code does): the audio context and its destination node are
    created in the executor of the promise, outside the [try] block of
    [video.onloadedmetadata].  When [new AudioContextClass()] or
    [audioCtx.createMediaStreamDestination()] throws, the promise is
    rejected with what was thrown; no handler has been installed, so nothing
    is logged as a warning and whatever the browser delivers nothing more
    happens: no recorder, no frame, no blob; and [downloadClip] logs the
    failure, alerts the user and leaves the downloading state. *)
Theorem audio_context_failure_rejects
    (browser : Browser) (clip : GeneratedClip) (ratio : AspectRatio)
    (audio : AudioContextSetup) (evs : list Event)
    (Hctx : has2dContext browser = true)
    (Haudio : audio = AudioContextThrows \/ audio = DestinationThrows) :
  let created := match audio with
                 | DestinationThrows => [NewAudioContext]
                 | _ => []
                 end in
  let r := renderClipWith browser clip ratio audio evs in
  promise (fst r) = Rejected SetUpException /\
  snd r = CreateObjectURL SourceUrl :: created /\
  downloadClipWith browser clip ratio audio evs
  = [SetIsDownloading true; SetDownloadProgress (Some 0);
     CreateObjectURL SourceUrl]
    ++ created
    ++ [ConsoleError renderingFailedMessage; Alert retryMessage;
        SetIsDownloading false; SetDownloadProgress (Some 0)].
Proof.
  intros created r. subst created r.
  unfold renderClipWith, downloadClipWith. rewrite andThen_run.
  assert (Hexec : executorWith browser audio blank
                  = ({| promise := Rejected SetUpException;
                        onloadedmetadata := false; oncanplay := false;
                        onseeked := false; onerror := false; recorder := None;
                        mimeType := VideoMp4; chunks := [];
                        playPending := false; frameScheduled := false |},
                     CreateObjectURL SourceUrl
                     :: match audio with
                        | DestinationThrows => [NewAudioContext]
                        | _ => []
                        end)).
  { unfold executorWith. rewrite Hctx. destruct Haudio as [-> | ->]; reflexivity. }
  rewrite Hexec. cbn [fst snd].
  rewrite run_idle, await_idle by (unfold idle; simpl; auto 10).
  cbn [fst snd promise whenSettled afterAwait]. rewrite app_nil_r.
  repeat split.
  destruct Haudio as [-> | ->]; reflexivity.
Qed.

(** The failing input of C8: no audio context can be created. *)
Lemma audio_context_failure_rejects_witness :
  let r := renderClipWith chrome sampleClip PORTRAIT AudioContextThrows
             (LoadedMetadata AudioTrackOk :: fullRun) in
  promise (fst r) = Rejected SetUpException /\
  snd r = [CreateObjectURL SourceUrl] /\
  downloadClipWith chrome sampleClip PORTRAIT AudioContextThrows
    (LoadedMetadata AudioTrackOk :: fullRun)
  = [SetIsDownloading true; SetDownloadProgress (Some 0);
     CreateObjectURL SourceUrl;
     ConsoleError renderingFailedMessage; Alert retryMessage;
     SetIsDownloading false; SetDownloadProgress (Some 0)].
Proof.
  apply (audio_context_failure_rejects chrome sampleClip PORTRAIT
           AudioContextThrows (LoadedMetadata AudioTrackOk :: fullRun)).
  - reflexivity.
  - left. reflexivity.
Defined.

(** *** Progress *)

Lemma clampProgress_bounds (x : Q) : 0 <= clampProgress x <= 99.
Proof.
  unfold clampProgress. split.
  - apply Q.min_glb; [lra | apply Q.le_max_l].
  - apply Q.le_min_l.
Qed.

Lemma clampProgress_mono (x y : Q) : x <= y -> clampProgress x <= clampProgress y.
Proof.
  intros H. unfold clampProgress.
  apply Q.min_le_compat_l. now apply Q.max_le_compat_l.
Qed.

Lemma progressValues_app (l1 l2 : list Effect) :
  progressValues (l1 ++ l2) = progressValues l1 ++ progressValues l2.
Proof.
  induction l1 as [|e l1 IH]; [reflexivity|].
  destruct e; simpl; now rewrite ?IH.
Qed.

Lemma downloadProgress_app (l1 l2 : list Effect) :
  downloadProgress (l1 ++ l2) = downloadProgress l1 ++ downloadProgress l2.
Proof.
  induction l1 as [|e l1 IH]; [reflexivity|].
  destruct e; simpl; now rewrite ?IH.
Qed.

Lemma frameTimes_cons (ev : Event) (evs : list Event) :
  frameTimes (ev :: evs) = frameTimes [ev] ++ frameTimes evs.
Proof. destruct ev; reflexivity. Qed.

Section Progress.

Variable clip : GeneratedClip.
Variable ratio : AspectRatio.
Hypothesis Hclip : startTime clip < endTime clip.

(** The value a tick at position [t] passes to [onProgress]. *)
Let progressAt (t : Q) : Q :=
  clampProgress ((t - startTime clip) / (endTime clip - startTime clip) * 100).

Lemma reportedProgress_finite (t : Q) :
  reportedProgress clip t = Some (progressAt t).
Proof.
  unfold reportedProgress, currentProgress.
  rewrite jsdiv_nonzero by lra. reflexivity.
Qed.

Lemma progressAt_mono (t t' : Q) : t <= t' -> progressAt t <= progressAt t'.
Proof.
  intros H. apply clampProgress_mono.
  apply Qmult_le_compat_r; [|lra].
  unfold Qdiv. apply Qmult_le_compat_r; [lra|].
  apply Qlt_le_weak, Qinv_lt_0_compat. lra.
Qed.

(** A step reports at most one value, and only on a tick. *)
Lemma step_progress (ev : Event) (s : RenderState) :
  progressValues (snd (step clip ratio ev s)) = [] \/
  exists t, frameTimes [ev] = [t] /\
            progressValues (snd (step clip ratio ev s)) = [Some (progressAt t)].
Proof.
  destruct s; destruct ev; unfold step; unfold_handlers; step_cases;
    try (left; reflexivity);
    right; eexists; (split; [reflexivity|]);
    destruct (composite _ _ _); simpl; now rewrite reportedProgress_finite.
Qed.

(** The value a tick reports is computed from the position that tick
    reads. *)
Lemma step_progress_of_tick (ev : Event) (s : RenderState) :
  progressValues (snd (step clip ratio ev s)) = [] \/
  exists v, (ev = PlayFulfilled v \/ ev = AnimationFrame v) /\
            progressValues (snd (step clip ratio ev s))
              = [Some (progressAt (currentTime v))].
Proof.
  destruct (step_progress ev s) as [H | (t & Ht & H)]; [now left|].
  right. destruct ev; try discriminate Ht;
    injection Ht as <-; exists v; auto.
Qed.

Lemma run_progress (evs : list Event) (s : RenderState) :
  StronglySorted Qle (frameTimes evs) ->
  exists vs : list Q,
    progressValues (snd (run clip ratio evs s)) = map Some vs /\
    StronglySorted Qle vs /\
    Forall (fun v => exists t, In t (frameTimes evs) /\ v = progressAt t) vs.
Proof.
  revert s. induction evs as [|ev evs IH]; intros s Hsorted.
  - exists []. repeat split; constructor.
  - rewrite frameTimes_cons in Hsorted.
    assert (Htail : StronglySorted Qle (frameTimes evs)).
    { destruct (frameTimes [ev]) as [|t [|? ?]] eqn:E;
        [exact Hsorted | now inversion Hsorted | destruct ev; discriminate]. }
    destruct (IH (fst (step clip ratio ev s)) Htail) as (vs & Hvs & Hs & Hall).
    rewrite run_cons. cbn [snd]. rewrite progressValues_app, Hvs.
    assert (Hweaken : Forall (fun v => exists t, In t (frameTimes (ev :: evs))
                                                 /\ v = progressAt t) vs).
    { eapply Forall_impl; [|exact Hall]. intros v (t & Hin & Hv).
      exists t. split; [|exact Hv]. rewrite frameTimes_cons.
      apply in_or_app. now right. }
    destruct (step_progress ev s) as [-> | (t & Ht & ->)].
    + exists vs. now repeat split.
    + exists (progressAt t :: vs). rewrite Ht in Hsorted.
      inversion Hsorted as [|? ? _ Hle]; subst.
      repeat split; [|constructor].
      * constructor; [assumption|].
        rewrite Forall_forall in Hall, Hle. apply Forall_forall.
        intros v Hv. destruct (Hall v Hv) as (t' & Hin & ->).
        apply progressAt_mono. now apply Hle.
      * exists t. split; [|reflexivity]. rewrite frameTimes_cons, Ht. now left.
      * exact Hweaken.
Qed.

(** What [setDownloadProgress] receives is a number from 0 to 99. *)
Let shown (v : option Q) : Prop := exists q, v = Some q /\ 0 <= q <= 99.

Lemma shown_zero : shown (Some 0).
Proof. exists 0. split; [reflexivity | lra]. Qed.

Lemma whenSettled_shown (p p' : PromiseState) :
  Forall shown (downloadProgress (whenSettled p p')).
Proof.
  destruct p, p'; simpl; repeat constructor; apply shown_zero.
Qed.

Lemma step_shown (ev : Event) (s : RenderState) :
  Forall shown (downloadProgress (progressCallback (snd (step clip ratio ev s)))).
Proof.
  destruct s; destruct ev; unfold step; unfold_handlers; step_cases;
    try constructor;
    destruct (composite _ _ _); simpl; rewrite reportedProgress_finite;
    repeat constructor; eexists; (split; [reflexivity|]);
    apply clampProgress_bounds.
Qed.

Lemma await_shown (evs : list Event) (s : RenderState) :
  Forall shown (downloadProgress (await clip ratio evs s)).
Proof.
  revert s. induction evs as [|ev evs IH]; intros s; [constructor|].
  simpl await. destruct (step clip ratio ev s) as [s1 e1] eqn:E.
  rewrite !downloadProgress_app. rewrite !Forall_app. repeat split.
  - pose proof (step_shown ev s) as H. now rewrite E in H.
  - apply whenSettled_shown.
  - apply IH.
Qed.

End Progress.

Section Settlement.

Variable clip : GeneratedClip.
Variable ratio : AspectRatio.

(** Once the promise has settled, the code after [await] is part of what
    [downloadClip] has done. *)
Lemma await_settles (evs : list Event) (s : RenderState) :
  promise s = Pending ->
  promise (fst (run clip ratio evs s)) <> Pending ->
  exists before after,
    await clip ratio evs s
    = before ++ afterAwait (promise (fst (run clip ratio evs s))) ++ after.
Proof.
  revert s. induction evs as [|ev evs IH]; intros s Hs Hp.
  - simpl in Hp. congruence.
  - simpl await. rewrite run_cons in *. cbn [fst] in *.
    destruct (step clip ratio ev s) as [s1 e1] eqn:E. cbn [fst] in *.
    rewrite Hs. cbn [whenSettled].
    destruct (promise s1) eqn:Hs1.
    + destruct (IH s1 Hs1 Hp) as (before & after & ->).
      exists (progressCallback e1 ++ before), after.
      cbn [afterAwait app]. now rewrite <- app_assoc.
    + exists (progressCallback e1), (await clip ratio evs s1).
      rewrite run_settled by congruence. now rewrite Hs1.
    + exists (progressCallback e1), (await clip ratio evs s1).
      rewrite run_settled by congruence. now rewrite Hs1.
Qed.

End Settlement.

(** C4, as stated, fails: in a render that runs to its end and resolves, no
    value handed to [onProgress] and no value [downloadClip] shows is 100; the
    last value shown is the 0 of the [finally] arm. *)
Lemma fullRun_terminal_progress_not_100 :
  let r := renderClip chrome sampleClip PORTRAIT fullRun in
  let shown := downloadProgress (downloadClip chrome sampleClip PORTRAIT fullRun) in
  promise (fst r) = Resolved {| blobParts := [1000%N]; blobType := VideoMp4 |} /\
  Forall (fun v => exists q, v = Some q /\ ~ q == 100) (progressValues (snd r)) /\
  Forall (fun v => exists q, v = Some q /\ ~ q == 100) shown /\
  last shown None = Some 0.
Proof.
  vm_compute.
  repeat split;
    repeat (constructor; [eexists; split; [reflexivity | discriminate]|]);
    constructor.
Qed.

(** C4 (amended): for a clip with [startTime < endTime] and playback
    positions that do not go back from tick to tick, the values handed to
    [onProgress] during one render are non-decreasing and lie in [0, 99];
    each value is handed over by a tick and is, in exact rational arithmetic,
    [(currentPosition - startTime) / (endTime - startTime) * 100] clamped to
    [0, 99] for the position that tick reads; every value [downloadClip]
    shows lies in [0, 99], and the double that the source computes from any
    three doubles is [NaN] or lies in [0, 99] too, so 100 is never
    delivered; and when the promise resolves with the blob, [downloadClip]
    saves it and sets the progress it shows to 0. *)
Theorem progress_nondecreasing_within_0_99
    (browser : Browser) (clip : GeneratedClip) (ratio : AspectRatio)
    (evs : list Event)
    (Hclip : startTime clip < endTime clip)
    (Hmono : StronglySorted Qle (frameTimes evs)) :
  let progressAt t :=
    clampProgress ((t - startTime clip) / (endTime clip - startTime clip) * 100) in
  let delivered l := progressValues (snd (renderClip browser clip ratio l)) in
  (exists vs : list Q,
     delivered evs = map Some vs /\
     StronglySorted Qle vs /\
     Forall (fun v => 0 <= v <= 99 /\
                      exists t, In t (frameTimes evs) /\ v = progressAt t) vs) /\
  (forall pre ev post, evs = pre ++ ev :: post ->
     delivered (pre ++ [ev]) = delivered pre \/
     exists v, (ev = PlayFulfilled v \/ ev = AnimationFrame v) /\
               delivered (pre ++ [ev])
               = delivered pre ++ [Some (progressAt (currentTime v))]) /\
  Forall (fun v => exists q, v = Some q /\ 0 <= q <= 99)
         (downloadProgress (downloadClip browser clip ratio evs)) /\
  (forall currentTime startTime endTime : float,
     let r := reportedProgressDouble currentTime startTime endTime in
     is_nan r = true \/ ((0 <=? r)%float = true /\ (r <=? 99)%float = true)) /\
  (forall b, promise (fst (renderClip browser clip ratio evs)) = Resolved b ->
     exists before after,
       downloadClip browser clip ratio evs
       = before
         ++ [CreateObjectURL DownloadUrl; AnchorClick b; RevokeObjectURL DownloadUrl;
             SetIsDownloading false; SetDownloadProgress (Some 0)]
         ++ after).
Proof.
  intros progressAt delivered. subst delivered. cbv beta.
  assert (Hexec : progressValues (snd (executor browser blank)) = []
                  /\ downloadProgress (progressCallback (snd (executor browser blank))) = []).
  { destruct (has2dContext browser) eqn:Hctx;
      [rewrite (executor_with_context browser Hctx)
      |rewrite (executor_without_context browser Hctx)]; now split. }
  destruct Hexec as [Hexec Hexec'].
  split; [|split; [|split; [|split; [exact reportedProgressDouble_bounds|]]]].
  - destruct (run_progress clip ratio Hclip evs (fst (executor browser blank)) Hmono)
      as (vs & Hvs & Hsorted & Hall).
    exists vs. rewrite renderClip_run. cbn [snd].
    rewrite progressValues_app, Hvs, Hexec.
    repeat split; try assumption.
    eapply Forall_impl; [|exact Hall]. intros v (t & Hin & ->).
    split; [apply clampProgress_bounds|]. now exists t.
  - intros pre ev post _. rewrite !renderClip_run, run_app. cbn [fst snd].
    rewrite run_cons. cbn [snd].
    change (snd (run clip ratio [] ?x)) with (@nil Effect).
    rewrite app_nil_r, !progressValues_app.
    destruct (step_progress_of_tick clip ratio Hclip ev
                (fst (run clip ratio pre (fst (executor browser blank)))))
      as [-> | (v & Hv & ->)].
    + left. now rewrite app_nil_r.
    + right. exists v. split; [exact Hv|]. now rewrite app_assoc.
  - unfold downloadClip, downloadClipWith.
    change (executorWith browser AudioContextReady) with (executor browser).
    destruct (executor browser blank) as [s0 e0].
    cbn [snd] in Hexec'. rewrite !downloadProgress_app, Hexec'.
    rewrite !Forall_app. repeat split.
    + simpl. repeat constructor. exists 0. split; [reflexivity | lra].
    + constructor.
    + apply (whenSettled_shown Pending (promise s0)).
    + now apply await_shown.
  - intros b Hb. rewrite renderClip_run in Hb. cbn [fst] in Hb.
    unfold downloadClip, downloadClipWith.
    change (executorWith browser AudioContextReady) with (executor browser).
    destruct (executor browser blank) as [s0 e0]. cbn [fst] in Hb.
    change [CreateObjectURL DownloadUrl; AnchorClick b; RevokeObjectURL DownloadUrl;
            SetIsDownloading false; SetDownloadProgress (Some 0)]
      with (afterAwait (Resolved b)).
    destruct (promise s0) eqn:Hs0.
    + destruct (await_settles clip ratio evs s0 Hs0) as (before & after & Hw);
        [rewrite Hb; discriminate|].
      rewrite Hw, Hb.
      exists ([SetIsDownloading true; SetDownloadProgress (Some 0)]
              ++ progressCallback e0 ++ before), after.
      cbn [whenSettled afterAwait]. now rewrite <- !app_assoc.
    + rewrite run_settled in Hb by congruence. rewrite Hs0 in Hb.
      injection Hb as ->.
      exists ([SetIsDownloading true; SetDownloadProgress (Some 0)]
              ++ progressCallback e0), (await clip ratio evs s0).
      cbn [whenSettled]. now rewrite <- !app_assoc.
    + rewrite run_settled in Hb by congruence. rewrite Hs0 in Hb. discriminate.
Qed.

Lemma progress_nondecreasing_within_0_99_witness :
  let progressAt t := clampProgress ((t - 10) / (20 - 10) * 100) in
  let delivered l := progressValues (snd (renderClip chrome sampleClip PORTRAIT l)) in
  (exists vs : list Q,
     delivered fullRun = map Some vs /\
     StronglySorted Qle vs /\
     Forall (fun v => 0 <= v <= 99 /\
                      exists t, In t (frameTimes fullRun) /\ v = progressAt t) vs) /\
  (forall pre ev post, fullRun = pre ++ ev :: post ->
     delivered (pre ++ [ev]) = delivered pre \/
     exists v, (ev = PlayFulfilled v \/ ev = AnimationFrame v) /\
               delivered (pre ++ [ev])
               = delivered pre ++ [Some (progressAt (currentTime v))]) /\
  Forall (fun v => exists q, v = Some q /\ 0 <= q <= 99)
         (downloadProgress (downloadClip chrome sampleClip PORTRAIT fullRun)) /\
  (forall currentTime startTime endTime : float,
     let r := reportedProgressDouble currentTime startTime endTime in
     is_nan r = true \/ ((0 <=? r)%float = true /\ (r <=? 99)%float = true)) /\
  (forall b, promise (fst (renderClip chrome sampleClip PORTRAIT fullRun)) = Resolved b ->
     exists before after,
       downloadClip chrome sampleClip PORTRAIT fullRun
       = before
         ++ [CreateObjectURL DownloadUrl; AnchorClick b; RevokeObjectURL DownloadUrl;
             SetIsDownloading false; SetDownloadProgress (Some 0)]
         ++ after).
Proof.
  apply (progress_nondecreasing_within_0_99 chrome sampleClip PORTRAIT fullRun).
  - reflexivity.
  - simpl. repeat constructor; discriminate.
Defined.

(** The order of the values is the order of the playback positions: were the
    position to go back between two ticks (15 s, then 12 s), the reported
    progress would go back with it (50, then 20). *)
Example progress_follows_playback_position :
  map (option_map Qred)
      (progressValues
         (snd (renderClip chrome sampleClip PORTRAIT
                 [CanPlay; Seeked 10; PlayFulfilled (frameAt 15);
                  AnimationFrame (frameAt 12)])))
  = [Some 50; Some 20].
Proof. vm_compute. reflexivity. Qed.

(** On the path that runs to its end the audio context is closed once and the
    recorder is stopped once. *)
Example fullRun_cleanup :
  let r := renderClip chrome sampleClip PORTRAIT fullRun in
  occurrences isCloseAudioContext (snd r) = 1%nat /\
  occurrences isRecorderStop (snd r) = 1%nat /\
  recorder (fst r) = Some Inactive.
Proof. vm_compute. repeat split. Qed.

(** ** The clip-suggestion call *)


Lemma mapi_from_Forall {A B : Type} (P : B -> Prop) (f : nat -> A -> B)
    (n : nat) (l : list A) :
  (forall i x, P (f i x)) -> Forall P (mapi_from f n l).
Proof.
  intros H. revert n. induction l as [|x l IH]; intros n; simpl; constructor; auto.
Qed.


(** C5 (what the code does): the fallback path does not clamp.  For a video
    of 30 seconds and iteration 1 every fallback clip ends after the end of
    the video (at 40, 45, 50 and 55 seconds), and three of the four start
    after [videoDuration - 5].  On the service path a video shorter than five
    seconds gets a negative [startTime]. *)
Theorem fallbackClips_not_clamped :
  (let clips := analyzeVideoForClips ServiceThrows (fun _ => 0%Z) "talk.mp4" 30 1 in
   map startTime clips = [10; 15; 20; 25] /\
   map endTime clips = [40; 45; 50; 55] /\
   Forall (fun c => ~ endTime c <= 30) clips /\
   map (boundsValid 30) clips = [false; false; false; false]) /\
  (let raw := {| rawTitle := "Intro"; rawDescription := ""; rawStartTime := 1;
                 rawEndTime := 2; rawViralityScore := 90; rawTags := [] |} in
   let clips := analyzeVideoForClips (Parsed [raw]) (fun _ => 0%Z) "talk.mp4" 3 1 in
   Forall (fun c => startTime c == -2 # 1 /\ startTime c < 0) clips /\
   map (boundsValid 3) clips = [false]).
Proof.
  split; cbv zeta.
  - set (clips := analyzeVideoForClips _ _ _ _ _).
    vm_compute in clips. subst clips.
    repeat split; try reflexivity.
    repeat constructor; apply Qlt_not_le; reflexivity.
  - set (clips := analyzeVideoForClips _ _ _ _ _).
    vm_compute in clips. subst clips.
    repeat split; try reflexivity.
    repeat constructor; reflexivity.
Qed.



(** * Further properties of the code *)

(** ** Geometry: the crop has the target's ratio and is as large as it can be *)

(** In exact rational arithmetic, for positive dimensions the crop rectangle
    has exactly the aspect ratio of the target, so scaling it onto the canvas
    does not distort, and it spans the full width or the full height of the
    source. *)
Theorem cropRect_target_ratio_maximal (vw vh : Z) (target : TargetGeometry)
  (Hvw : (0 < vw)%Z) (Hvh : (0 < vh)%Z)
  (Htw : (0 < width target)%Z) (Hth : (0 < height target)%Z) :
  exists r,
    composite vw vh target = DrawImage r (width target) (height target) /\
    sWidth r * inject_Z (height target) == sHeight r * inject_Z (width target) /\
    0 < sWidth r /\ 0 < sHeight r /\
    (sWidth r == inject_Z vw \/ sHeight r == inject_Z vh).
Proof.
  pose proof (composite_draws vw vh target Hvw Hvh Htw Hth) as Hc.
  cbv zeta in Hc.
  pose proof (inject_Z_pos _ Hvw) as HW.
  pose proof (inject_Z_pos _ Hvh) as HH.
  pose proof (inject_Z_pos _ Htw) as HTW.
  pose proof (inject_Z_pos _ Hth) as HTH.
  set (W := inject_Z vw) in *. set (H := inject_Z vh) in *.
  set (tw := inject_Z (width target)) in *.
  set (th := inject_Z (height target)) in *.
  assert (HR : 0 < tw / th) by now apply Qdiv_pos.
  eexists. split; [exact Hc|].
  destruct (Qltb (tw / th) (W / H)); simpl.
  - repeat split.
    + field. lra.
    + apply Qmult_lt_0_compat; assumption.
    + assumption.
    + right. reflexivity.
  - repeat split.
    + field. split; lra.
    + assumption.
    + apply Qdiv_pos; assumption.
    + left. reflexivity.
Qed.

Lemma cropRect_target_ratio_maximal_witness :
  exists r,
    composite 1920 1080 (getTargetDimensions FOUR_FIVE) = DrawImage r 1080 1350 /\
    sWidth r * 1350 == sHeight r * 1080 /\
    0 < sWidth r /\ 0 < sHeight r /\
    (sWidth r == 1920 \/ sHeight r == 1080).
Proof.
  apply (cropRect_target_ratio_maximal 1920 1080 (getTargetDimensions FOUR_FIVE));
    simpl; lia.
Defined.

(** ** The life cycle of one render *)

(** Case analysis on a step: name its result, split on everything the
    handler reads, and read the result off. *)
Ltac step_crush :=
  match goal with
  | |- context [step ?c ?r ?ev ?s] =>
      let s' := fresh "s'" in
      let e := fresh "e" in
      let E := fresh "E" in
      destruct (step c r ev s) as [s' e] eqn:E; revert E
  end;
  unfold step; unfold_handlers; step_cases;
  try (destruct (composite _ _ _));
  let E := fresh "E" in
  intros E; inversion E; subst; clear E; simpl in *.

(** After a step is read off: compare a measure before and after it. *)
Ltac measure_crush m :=
  unfold m, occurrences; simpl;
  repeat match goal with
    | H : ?x = _ |- context [?x] => rewrite H
    end;
  repeat match goal with
    | |- context [if ?b then _ else _] => destruct b
    | |- context [match ?x with Some _ => _ | None => _ end] => destruct x
    | |- context [match ?x with Pending => _ | _ => _ end] => destruct x
    | |- context [match ?x with Inactive => _ | _ => _ end] => destruct x
    end;
  simpl; try congruence; try lia.

Section LifeCycle.

Variable clip : GeneratedClip.
Variable ratio : AspectRatio.

(** Calls counted against a measure that the steps use up. *)
Lemma run_uses_up (p : Effect -> bool) (left : RenderState -> nat) :
  (forall ev s, (occurrences p (snd (step clip ratio ev s))
                 + left (fst (step clip ratio ev s)) <= left s)%nat) ->
  forall evs s, (occurrences p (snd (run clip ratio evs s))
                 + left (fst (run clip ratio evs s)) <= left s)%nat.
Proof.
  intros Hstep evs. induction evs as [|ev evs IH]; intros s; [simpl; lia|].
  rewrite run_cons. cbn [fst snd]. rewrite occurrences_app.
  specialize (Hstep ev s). specialize (IH (fst (step clip ratio ev s))). lia.
Qed.

(** Calls that a state cannot be reached without. *)
Lemma run_requires (p : Effect -> bool) (done : RenderState -> nat) :
  (forall ev s, (done (fst (step clip ratio ev s))
                 <= done s + occurrences p (snd (step clip ratio ev s)))%nat) ->
  forall evs s, (done (fst (run clip ratio evs s))
                 <= done s + occurrences p (snd (run clip ratio evs s)))%nat.
Proof.
  intros Hstep evs. induction evs as [|ev evs IH]; intros s; [simpl; lia|].
  rewrite run_cons. cbn [fst snd]. rewrite occurrences_app.
  specialize (Hstep ev s). specialize (IH (fst (step clip ratio ev s))). lia.
Qed.

Lemma step_starts_left (ev : Event) (s : RenderState) :
  (occurrences isRecorderStart (snd (step clip ratio ev s))
   + startsLeft (fst (step clip ratio ev s)) <= startsLeft s)%nat.
Proof.
  destruct ev; step_crush; measure_crush startsLeft.
Qed.

Lemma step_ticks_left (ev : Event) (s : RenderState) :
  (occurrences isRecorderStop (snd (step clip ratio ev s))
   + ticksLeft (fst (step clip ratio ev s)) <= ticksLeft s)%nat.
Proof.
  destruct ev; step_crush; measure_crush ticksLeft.
Qed.

Lemma step_stops_left (ev : Event) (s : RenderState) :
  (occurrences isCloseAudioContext (snd (step clip ratio ev s))
   + stopsLeft (fst (step clip ratio ev s)) <= stopsLeft s)%nat.
Proof.
  destruct ev; step_crush; measure_crush stopsLeft.
Qed.

Lemma step_has_started (ev : Event) (s : RenderState) :
  (hasStarted (fst (step clip ratio ev s))
   <= hasStarted s + occurrences isRecorderStart (snd (step clip ratio ev s)))%nat.
Proof.
  destruct ev; step_crush; measure_crush hasStarted.
Qed.

Lemma step_has_resolved (ev : Event) (s : RenderState) :
  (hasResolved (fst (step clip ratio ev s))
   <= hasResolved s
      + occurrences isCloseAudioContext (snd (step clip ratio ev s)))%nat.
Proof.
  destruct ev; step_crush; measure_crush hasResolved.
Qed.

End LifeCycle.

Lemma draws_app (l1 l2 : list Effect) :
  draws (l1 ++ l2) = draws l1 ++ draws l2.
Proof.
  induction l1 as [|e l1 IH]; [reflexivity|].
  destruct e; simpl; now rewrite ?IH.
Qed.

(** Each of [recorder.start()], [recorder.stop()] and [audioCtx.close()] is
    called at most once in a render, whatever the browser delivers and in
    whatever order. *)
Theorem recorder_and_audio_context_used_at_most_once
    (browser : Browser) (clip : GeneratedClip) (ratio : AspectRatio)
    (evs : list Event) :
  let r := renderClip browser clip ratio evs in
  (occurrences isRecorderStart (snd r) <= 1)%nat /\
  (occurrences isRecorderStop (snd r) <= 1)%nat /\
  (occurrences isCloseAudioContext (snd r) <= 1)%nat.
Proof.
  intros r. subst r. rewrite renderClip_run. cbn [snd]. rewrite !occurrences_app.
  set (s0 := fst (executor browser blank)).
  pose proof (run_uses_up clip ratio _ _ (step_starts_left clip ratio) evs s0) as H1.
  pose proof (run_uses_up clip ratio _ _ (step_ticks_left clip ratio) evs s0) as H2.
  pose proof (run_uses_up clip ratio _ _ (step_stops_left clip ratio) evs s0) as H3.
  subst s0. destruct (has2dContext browser) eqn:Hctx;
    [rewrite (executor_with_context browser Hctx) in *
    |rewrite (executor_without_context browser Hctx) in *];
    cbn [fst snd] in *; unfold startsLeft, ticksLeft, stopsLeft, occurrences in *;
    simpl in *; lia.
Qed.

Section Chunks.

Variable clip : GeneratedClip.
Variable ratio : AspectRatio.

(** What a step can do to the chunk buffer, the negotiated type and the
    promise. *)
Lemma step_chunks_promise (ev : Event) (s : RenderState) :
  (chunks (fst (step clip ratio ev s)) = chunks s \/
   exists n, ev = DataAvailable n /\ (0 < n)%N /\
             chunks (fst (step clip ratio ev s)) = chunks s ++ [n]) /\
  mimeType (fst (step clip ratio ev s)) = mimeType s /\
  (promise (fst (step clip ratio ev s)) = promise s \/
   (exists e, promise (fst (step clip ratio ev s)) = Rejected e) \/
   promise (fst (step clip ratio ev s))
     = Resolved {| blobParts := chunks s; blobType := mimeType s |}).
Proof.
  destruct ev; step_crush; repeat split; eauto;
    right; exists size; repeat split; now apply N.ltb_lt.
Qed.

Lemma run_chunks (A : N -> Prop) (m : MimeType) (evs : list Event)
    (s : RenderState) :
  (forall n, In (DataAvailable n) evs -> (0 < n)%N -> A n) ->
  mimeType s = m ->
  Forall A (chunks s) ->
  (forall b, promise s = Resolved b -> blobType b = m /\ Forall A (blobParts b)) ->
  forall b, promise (fst (run clip ratio evs s)) = Resolved b ->
            blobType b = m /\ Forall A (blobParts b).
Proof.
  revert s. induction evs as [|ev evs IH]; intros s Hev Hm Hc Hp; [exact Hp|].
  rewrite run_cons. cbn [fst].
  destruct (step_chunks_promise ev s) as (Hchunks & Hmime & Hpromise).
  apply IH.
  - intros n Hn. apply Hev. now right.
  - now rewrite Hmime.
  - destruct Hchunks as [-> | (n & -> & Hpos & ->)]; [exact Hc|].
    apply Forall_app. split; [exact Hc|]. constructor; [|constructor].
    apply Hev; [now left | exact Hpos].
  - intros b Hb. destruct Hpromise as [Hsame | [(e & He) | Hres]].
    + apply Hp. now rewrite <- Hsame.
    + rewrite He in Hb. discriminate.
    + rewrite Hres in Hb. injection Hb as <-. simpl. now split.
Qed.

End Chunks.

(** The promise is resolved by [recorder.onstop] and by nothing else. *)
Lemma step_resolves_on_stop (clip : GeneratedClip) (ratio : AspectRatio)
    (ev : Event) (s : RenderState) (b : Blob) :
  promise (fst (step clip ratio ev s)) = Resolved b ->
  promise s = Resolved b \/ ev = RecorderStopped.
Proof.
  destruct ev; step_crush; auto; try congruence;
    intros H; left; congruence.
Qed.

Lemma run_resolves_on_stop (clip : GeneratedClip) (ratio : AspectRatio)
    (evs : list Event) (s : RenderState) (b : Blob) :
  promise (fst (run clip ratio evs s)) = Resolved b ->
  promise s = Resolved b \/ In RecorderStopped evs.
Proof.
  revert s. induction evs as [|ev evs IH]; intros s H; [now left|].
  rewrite run_cons in H. cbn [fst] in H.
  destruct (IH _ H) as [H1 | H1]; [|right; now right].
  destruct (step_resolves_on_stop clip ratio ev s b H1) as [H2 | ->];
    [now left | right; now left].
Qed.

(** When the promise resolves, the recorder's [stop] event was delivered, the
    capture was started exactly once and the audio context closed exactly
    once; [recorder.stop()] was called at most once (the [stop] event of a
    recorder that ends on its own comes without that call); the blob has the
    type negotiated at set-up, and its parts are non-empty chunks that
    [ondataavailable] delivered. *)
Theorem resolved_render_is_complete
    (browser : Browser) (clip : GeneratedClip) (ratio : AspectRatio)
    (evs : list Event) (b : Blob)
    (Hres : promise (fst (renderClip browser clip ratio evs)) = Resolved b) :
  let effs := snd (renderClip browser clip ratio evs) in
  has2dContext browser = true /\
  In RecorderStopped evs /\
  occurrences isRecorderStart effs = 1%nat /\
  (occurrences isRecorderStop effs <= 1)%nat /\
  occurrences isCloseAudioContext effs = 1%nat /\
  blobType b = chooseMimeType browser VideoMp4 /\
  Forall (fun n => (0 < n)%N /\ In (DataAvailable n) evs) (blobParts b).
Proof.
  intros effs. subst effs.
  rewrite renderClip_run in *. cbn [fst snd] in *.
  destruct (has2dContext browser) eqn:Hctx.
  - rewrite (executor_with_context browser Hctx) in *. cbn [fst snd] in *.
    set (s0 := {| promise := Pending; onloadedmetadata := true |}) in *.
    pose proof (run_uses_up clip ratio _ _ (step_starts_left clip ratio) evs s0) as U1.
    pose proof (run_uses_up clip ratio _ _ (step_ticks_left clip ratio) evs s0) as U2.
    pose proof (run_uses_up clip ratio _ _ (step_stops_left clip ratio) evs s0) as U3.
    pose proof (run_requires clip ratio _ _ (step_has_started clip ratio) evs s0) as H1.
    pose proof (run_requires clip ratio _ _ (step_has_resolved clip ratio) evs s0) as H3.
    unfold hasStarted, hasResolved in H1, H3.
    rewrite Hres in H1, H3.
    rewrite !occurrences_app.
    split; [reflexivity|].
    split.
    { destruct (run_resolves_on_stop clip ratio evs s0 b Hres) as [H | H];
        [discriminate H | exact H]. }
    assert (Hcount :
      occurrences isRecorderStart (snd (run clip ratio evs s0)) = 1%nat /\
      (occurrences isRecorderStop (snd (run clip ratio evs s0)) <= 1)%nat /\
      occurrences isCloseAudioContext (snd (run clip ratio evs s0)) = 1%nat).
    { destruct (recorder (fst (run clip ratio evs s0))) as [[]|];
        unfold startsLeft, ticksLeft, stopsLeft in U1, U2, U3;
        simpl in H1, H3, U1, U2, U3; lia. }
    destruct Hcount as (C1 & C2 & C3).
    split; [unfold occurrences in *; simpl; lia|].
    split; [unfold occurrences in *; simpl; lia|].
    split; [unfold occurrences in *; simpl; lia|].
    apply (run_chunks clip ratio
             (fun n => (0 < n)%N /\ In (DataAvailable n) evs)
             (chooseMimeType browser VideoMp4) evs s0);
      try reflexivity; try (now constructor); try (intros; now split);
      try (intros ? Hb; discriminate Hb); exact Hres.
  - rewrite (executor_without_context browser Hctx) in Hres. cbn [fst] in Hres.
    rewrite run_settled in Hres by discriminate. discriminate.
Qed.

Lemma resolved_render_is_complete_witness :
  let effs := snd (renderClip chrome sampleClip PORTRAIT fullRun) in
  has2dContext chrome = true /\
  In RecorderStopped fullRun /\
  occurrences isRecorderStart effs = 1%nat /\
  (occurrences isRecorderStop effs <= 1)%nat /\
  occurrences isCloseAudioContext effs = 1%nat /\
  VideoMp4 = chooseMimeType chrome VideoMp4 /\
  Forall (fun n => (0 < n)%N /\ In (DataAvailable n) fullRun) [1000%N].
Proof.
  apply (resolved_render_is_complete chrome sampleClip PORTRAIT fullRun
           {| blobParts := [1000%N]; blobType := VideoMp4 |}).
  reflexivity.
Defined.

(** A recorder that stops on its own: the promise resolves with what was
    recorded so far, [recorder.stop()] was never called, and the loop goes
    on, so a later tick still reports progress. *)
Example recorder_stops_on_its_own :
  let evs := [CanPlay; Seeked 10; PlayFulfilled (frameAt 10);
              DataAvailable 500; RecorderStopped] in
  let r := renderClip chrome sampleClip PORTRAIT evs in
  let later := renderClip chrome sampleClip PORTRAIT
                 (evs ++ [AnimationFrame (frameAt 15)]) in
  promise (fst r) = Resolved {| blobParts := [500%N]; blobType := VideoMp4 |} /\
  occurrences isRecorderStop (snd r) = 0%nat /\
  occurrences isCloseAudioContext (snd r) = 1%nat /\
  List.length (progressValues (snd later))
    = S (List.length (progressValues (snd r))).
Proof. vm_compute. repeat split. Qed.

Section Loop.

Variable clip : GeneratedClip.
Variable ratio : AspectRatio.

(** With no tick outstanding and [onseeked] gone, a step neither draws nor
    reports progress nor touches the recorder, and no tick becomes
    outstanding again. *)
Lemma step_loop_over (ev : Event) (s : RenderState) :
  ticksLeft s = 0%nat ->
  ticksLeft (fst (step clip ratio ev s)) = 0%nat /\
  draws (snd (step clip ratio ev s)) = [] /\
  progressValues (snd (step clip ratio ev s)) = [] /\
  occurrences isRecorderStop (snd (step clip ratio ev s)) = 0%nat /\
  occurrences isRequestAnimationFrame (snd (step clip ratio ev s)) = 0%nat.
Proof.
  intros H.
  assert (Hs : onseeked s = false /\ playPending s = false
               /\ frameScheduled s = false).
  { unfold ticksLeft in H.
    destruct (onseeked s), (playPending s), (frameScheduled s);
      simpl in H; try discriminate; auto. }
  destruct Hs as (Hs & Hp & Hf).
  destruct ev; step_crush; try congruence;
    unfold ticksLeft; simpl;
    repeat match goal with
      | Hx : ?x = false |- context [?x] => rewrite Hx
      end; auto.
Qed.

Lemma run_loop_over (evs : list Event) (s : RenderState) :
  ticksLeft s = 0%nat ->
  draws (snd (run clip ratio evs s)) = [] /\
  progressValues (snd (run clip ratio evs s)) = [] /\
  occurrences isRecorderStop (snd (run clip ratio evs s)) = 0%nat /\
  occurrences isRequestAnimationFrame (snd (run clip ratio evs s)) = 0%nat.
Proof.
  revert s. induction evs as [|ev evs IH]; intros s H; [now simpl|].
  destruct (step_loop_over ev s H) as (H' & Hd & Hp & Hr & Hq).
  destruct (IH _ H') as (Hd' & Hp' & Hr' & Hq').
  rewrite run_cons. cbn [snd].
  rewrite draws_app, progressValues_app, !occurrences_app.
  now rewrite Hd, Hp, Hr, Hq, Hd', Hp', Hr', Hq'.
Qed.

(** Before playback is requested no tick is outstanding, and a step that does
    not start the recorder keeps it so and draws and reports nothing. *)
Lemma step_not_started (ev : Event) (s : RenderState) :
  playPending s = false -> frameScheduled s = false ->
  occurrences isRecorderStart (snd (step clip ratio ev s)) = 0%nat ->
  playPending (fst (step clip ratio ev s)) = false /\
  frameScheduled (fst (step clip ratio ev s)) = false /\
  draws (snd (step clip ratio ev s)) = [] /\
  progressValues (snd (step clip ratio ev s)) = [].
Proof.
  intros Hp Hf.
  destruct ev; step_crush; try congruence; auto; discriminate.
Qed.

Lemma run_not_started (evs : list Event) (s : RenderState) :
  playPending s = false -> frameScheduled s = false ->
  occurrences isRecorderStart (snd (run clip ratio evs s)) = 0%nat ->
  draws (snd (run clip ratio evs s)) = [] /\
  progressValues (snd (run clip ratio evs s)) = [].
Proof.
  revert s. induction evs as [|ev evs IH]; intros s Hp Hf H; [now simpl|].
  rewrite run_cons in *. cbn [snd] in *.
  rewrite occurrences_app in H.
  destruct (step_not_started ev s Hp Hf) as (Hp' & Hf' & Hd & Hv); [lia|].
  destruct (IH _ Hp' Hf') as (Hd' & Hv'); [lia|].
  rewrite draws_app, progressValues_app. now rewrite Hd, Hv, Hd', Hv'.
Qed.

End Loop.

(** Once [recorder.stop()] has been called the loop is over: whatever the
    browser delivers afterwards, nothing more is drawn, no further progress
    is reported, no animation frame is requested and the recorder is not
    stopped a second time. *)
Theorem loop_over_after_stop
    (browser : Browser) (clip : GeneratedClip) (ratio : AspectRatio)
    (evs later : list Event)
    (Hstop : occurrences isRecorderStop
               (snd (renderClip browser clip ratio evs)) = 1%nat) :
  draws (snd (renderClip browser clip ratio (evs ++ later)))
    = draws (snd (renderClip browser clip ratio evs)) /\
  progressValues (snd (renderClip browser clip ratio (evs ++ later)))
    = progressValues (snd (renderClip browser clip ratio evs)) /\
  occurrences isRecorderStop (snd (renderClip browser clip ratio (evs ++ later)))
    = 1%nat /\
  occurrences isRequestAnimationFrame
    (snd (renderClip browser clip ratio (evs ++ later)))
    = occurrences isRequestAnimationFrame (snd (renderClip browser clip ratio evs)).
Proof.
  rewrite !renderClip_run in *. rewrite run_app. cbn [fst snd] in *.
  set (s0 := fst (executor browser blank)) in *.
  pose proof (run_uses_up clip ratio _ _ (step_ticks_left clip ratio) evs s0) as H.
  assert (H0 : (occurrences isRecorderStop (snd (executor browser blank))
                + ticksLeft s0 <= 1)%nat).
  { subst s0. destruct (has2dContext browser) eqn:Hctx;
      [rewrite (executor_with_context browser Hctx)
      |rewrite (executor_without_context browser Hctx)];
      unfold ticksLeft, occurrences; simpl; lia. }
  rewrite occurrences_app in Hstop.
  destruct (run_loop_over clip ratio later (fst (run clip ratio evs s0)))
    as (Hd & Hp & Hr & Hq); [lia|].
  rewrite !app_assoc, !draws_app, !progressValues_app, !occurrences_app.
  rewrite Hd, Hp, Hr, Hq, !app_nil_r, !Nat.add_0_r.
  repeat split; try reflexivity. exact Hstop.
Qed.

Lemma loop_over_after_stop_witness :
  progressValues
    (snd (renderClip chrome sampleClip PORTRAIT
            (fullRun ++ [AnimationFrame (frameAt 21); PlayFulfilled (frameAt 22)])))
  = progressValues (snd (renderClip chrome sampleClip PORTRAIT fullRun)).
Proof.
  apply (loop_over_after_stop chrome sampleClip PORTRAIT fullRun
           [AnimationFrame (frameAt 21); PlayFulfilled (frameAt 22)]).
  reflexivity.
Defined.

(** As long as [recorder.start()] has not been called (no seek was accepted),
    nothing is drawn, no progress is reported and the promise is not
    resolved. *)
Theorem nothing_rendered_before_start
    (browser : Browser) (clip : GeneratedClip) (ratio : AspectRatio)
    (evs : list Event)
    (Hstart : occurrences isRecorderStart
                (snd (renderClip browser clip ratio evs)) = 0%nat) :
  draws (snd (renderClip browser clip ratio evs)) = [] /\
  progressValues (snd (renderClip browser clip ratio evs)) = [] /\
  forall b, promise (fst (renderClip browser clip ratio evs)) <> Resolved b.
Proof.
  rewrite renderClip_run in *. cbn [fst snd] in *.
  rewrite occurrences_app in Hstart.
  set (s0 := fst (executor browser blank)) in *.
  assert (H0 : playPending s0 = false /\ frameScheduled s0 = false
               /\ hasStarted s0 = 0%nat
               /\ draws (snd (executor browser blank)) = []
               /\ progressValues (snd (executor browser blank)) = []).
  { subst s0. destruct (has2dContext browser) eqn:Hctx;
      [rewrite (executor_with_context browser Hctx)
      |rewrite (executor_without_context browser Hctx)]; now repeat split. }
  destruct H0 as (Hp & Hf & Hs & Hd & Hv).
  destruct (run_not_started clip ratio evs s0 Hp Hf) as (Hd' & Hv'); [lia|].
  rewrite draws_app, progressValues_app, Hd, Hv, Hd', Hv'.
  repeat split; try reflexivity.
  intros b Hb.
  pose proof (run_requires clip ratio _ _ (step_has_started clip ratio) evs s0) as H.
  unfold hasStarted at 1 in H. rewrite Hb in H.
  destruct (recorder (fst (run clip ratio evs s0))) as [[]|]; lia.
Qed.

Lemma nothing_rendered_before_start_witness :
  progressValues
    (snd (renderClip chrome sampleClip PORTRAIT
            [LoadedMetadata AudioTrackOk; CanPlay; Seeked 11;
             PlayFulfilled (frameAt 11); AnimationFrame (frameAt 12)])) = [].
Proof.
  apply (nothing_rendered_before_start chrome sampleClip PORTRAIT
           [LoadedMetadata AudioTrackOk; CanPlay; Seeked 11;
            PlayFulfilled (frameAt 11); AnimationFrame (frameAt 12)]).
  reflexivity.
Defined.

(** ** A render that runs to its end *)

Section Completion.

Variable clip : GeneratedClip.
Variable ratio : AspectRatio.

(** A tick before the end of the clip reports one value and asks for the next
    frame. *)
Lemma renderFrame_before_end (v : VideoSnapshot) (s : RenderState) :
  currentTime v < endTime clip ->
  fst (renderFrame clip ratio v s) = set_frameScheduled true s /\
  progressValues (snd (renderFrame clip ratio v s))
    = [reportedProgress clip (currentTime v)].
Proof.
  intros Ht. apply Qgeb_lt in Ht. unfold renderFrame. rewrite Ht, andb_false_r.
  unfold_handlers. destruct (composite _ _ _); split; reflexivity.
Qed.

(** A tick at or past the end stops the recorder and asks for no frame; it
    still reports unless the video already stands paused or ended. *)
Lemma renderFrame_at_end (v : VideoSnapshot) (s : RenderState) :
  endTime clip <= currentTime v ->
  recorder s = Some Recording ->
  fst (renderFrame clip ratio v s) = set_recorder (Some Stopping) s /\
  progressValues (snd (renderFrame clip ratio v s))
    = (if (paused v || ended v)%bool then []
       else [reportedProgress clip (currentTime v)]).
Proof.
  intros Ht Hr. apply Qgeb_le in Ht. unfold renderFrame. rewrite Ht, andb_true_r.
  destruct (paused v || ended v)%bool; unfold_handlers;
    [simpl; rewrite Hr; split; reflexivity|].
  destruct (composite _ _ _); simpl; rewrite Hr; split; reflexivity.
Qed.

Lemma set_frameScheduled_same (s : RenderState) :
  frameScheduled s = true ->
  set_frameScheduled true (set_frameScheduled false s) = s.
Proof. destruct s. simpl. now intros ->. Qed.

Lemma run_frames_before_end (frames : list VideoSnapshot) (s : RenderState) :
  frameScheduled s = true ->
  Forall (fun v => currentTime v < endTime clip) frames ->
  fst (run clip ratio (map AnimationFrame frames) s) = s /\
  progressValues (snd (run clip ratio (map AnimationFrame frames) s))
    = map (fun v => reportedProgress clip (currentTime v)) frames.
Proof.
  intros Hf Hall. induction Hall as [|v frames Hv Hall IH]; [now split|].
  simpl map. rewrite run_cons.
  assert (Hstep : step clip ratio (AnimationFrame v) s
                  = renderFrame clip ratio v (set_frameScheduled false s)).
  { unfold step. rewrite Hf. unfold andThen, modify.
    now destruct (renderFrame clip ratio v (set_frameScheduled false s)). }
  rewrite Hstep.
  destruct (renderFrame_before_end v (set_frameScheduled false s) Hv) as [-> Hp].
  rewrite set_frameScheduled_same by assumption.
  cbn [fst snd]. rewrite progressValues_app, Hp.
  destruct IH as [-> ->]. now split.
Qed.

(** Chunks delivered after [stop()]: the non-empty ones are kept, in order. *)
Lemma run_dataavailable (sizes : list N) (s : RenderState) :
  recorder s = Some Stopping ->
  run clip ratio (map DataAvailable sizes) s
  = (set_chunks (chunks s ++ filter (fun n => (0 <? n)%N) sizes) s, []).
Proof.
  revert s. induction sizes as [|n sizes IH]; intros s Hr.
  - simpl. rewrite app_nil_r. now destruct s.
  - simpl map. rewrite run_cons. unfold step at 1 2 3. rewrite Hr.
    unfold on_dataavailable. simpl filter.
    destruct (0 <? n)%N; unfold modify, skip; cbn [fst snd].
    + rewrite IH by exact Hr. destruct s; simpl. now rewrite <- app_assoc.
    + now rewrite IH.
Qed.

End Completion.

(** The path to a finished clip, step by step: what the ticks report is the
    value of [reportedProgress] at their positions. *)
Lemma run_to_completion
    (browser : Browser) (clip : GeneratedClip) (ratio : AspectRatio)
    (t0 : Q) (v0 : VideoSnapshot) (frames : list VideoSnapshot)
    (vlast : VideoSnapshot) (sizes : list N)
    (Hctx : has2dContext browser = true)
    (Hseek : Qabs (t0 - startTime clip) < 1 # 2)
    (Hbefore : Forall (fun v => currentTime v < endTime clip) (v0 :: frames))
    (Hlast : endTime clip <= currentTime vlast) :
  let evs := CanPlay :: Seeked t0 :: PlayFulfilled v0
             :: map AnimationFrame frames
             ++ AnimationFrame vlast :: map DataAvailable sizes
             ++ [RecorderStopped] in
  let r := renderClip browser clip ratio evs in
  promise (fst r)
    = Resolved {| blobParts := filter (fun n => (0 <? n)%N) sizes;
                  blobType := chooseMimeType browser VideoMp4 |} /\
  recorder (fst r) = Some Inactive /\
  progressValues (snd r)
    = map (fun v => reportedProgress clip (currentTime v)) (v0 :: frames)
      ++ (if (paused vlast || ended vlast)%bool then []
          else [reportedProgress clip (currentTime vlast)]).
Proof.
  intros evs r. subst r evs.
  inversion Hbefore as [|? ? Hv0 Hframes]; subst.
  rewrite renderClip_run, (executor_with_context browser Hctx). cbn [fst snd].
  set (m := chooseMimeType browser VideoMp4).
  set (primed := {| promise := Pending; onloadedmetadata := true;
                    oncanplay := false; onseeked := false; onerror := true;
                    recorder := Some Recording; mimeType := m; chunks := [];
                    playPending := true; frameScheduled := false |}).
  set (capturing := {| promise := Pending; onloadedmetadata := true;
                       oncanplay := false; onseeked := false; onerror := true;
                       recorder := Some Recording; mimeType := m; chunks := [];
                       playPending := false; frameScheduled := true |}).
  (* canplay, then seeked within tolerance *)
  apply Qltb_lt in Hseek.
  change (CanPlay :: Seeked t0 :: ?l) with ([CanPlay; Seeked t0] ++ l).
  rewrite run_app.
  match goal with
  | |- context [run clip ratio [CanPlay; Seeked t0] ?s] =>
      assert (Hprefix : run clip ratio [CanPlay; Seeked t0] s
                        = (primed, [SetCurrentTime (startTime clip);
                                    RecorderStart; VideoPlay]))
        by (unfold run, step, on_canplay, on_seeked, recorder_start, andThen,
              modify, emit, skip;
            cbn [fst snd app promise onloadedmetadata oncanplay onseeked
                   onerror recorder mimeType chunks playPending frameScheduled
                   set_oncanplay set_onseeked set_recorder set_playPending];
            rewrite Hseek; reflexivity)
  end.
  rewrite Hprefix. cbn [fst snd].
  (* play() fulfils: first tick *)
  rewrite run_cons.
  assert (Hstep : step clip ratio (PlayFulfilled v0) primed
                  = renderFrame clip ratio v0 (set_playPending false primed))
    by (unfold step, andThen, modify; simpl;
        now destruct (renderFrame clip ratio v0 _)).
  rewrite Hstep; clear Hstep.
  destruct (renderFrame_before_end clip ratio v0 (set_playPending false primed) Hv0)
    as [Hs0 Hp0].
  rewrite Hs0. change (set_frameScheduled true (set_playPending false primed))
    with capturing.
  cbn [fst snd].
  (* the ticks before the end *)
  rewrite run_app.
  destruct (run_frames_before_end clip ratio frames capturing eq_refl Hframes)
    as [Hs1 Hp1].
  rewrite Hs1. cbn [fst snd].
  (* the tick at the end *)
  rewrite run_cons.
  assert (Hstep : step clip ratio (AnimationFrame vlast) capturing
                  = renderFrame clip ratio vlast (set_frameScheduled false capturing))
    by (unfold step, andThen, modify; simpl;
        now destruct (renderFrame clip ratio vlast _)).
  rewrite Hstep; clear Hstep.
  destruct (renderFrame_at_end clip ratio vlast
              (set_frameScheduled false capturing) Hlast eq_refl) as [Hs2 Hp2].
  rewrite Hs2. cbn [fst snd].
  (* the chunks, then the stop event *)
  rewrite run_app, run_dataavailable by reflexivity.
  cbn [fst snd]. simpl run.
  rewrite !progressValues_app, Hp0, Hp1, Hp2.
  repeat split; simpl; now rewrite ?app_nil_r.
Qed.

(** The path to a finished clip, for a clip with [startTime < endTime]: the
    seek lands within [largestBelowHalf] of the start (the distance the
    source computes in doubles is then below 0.5), playback begins, ticks
    follow until one is at or past the end of the clip, the recorder
    delivers its chunks and its [stop] event.  Then the promise resolves with
    the non-empty chunks in order, typed as negotiated, the recorder is
    inactive, and exactly one progress value, a number from 0 to 99, was
    reported per tick (none for a last tick that finds the video paused or
    ended). *)
Theorem render_runs_to_completion
    (browser : Browser) (clip : GeneratedClip) (ratio : AspectRatio)
    (t0 : Q) (v0 : VideoSnapshot) (frames : list VideoSnapshot)
    (vlast : VideoSnapshot) (sizes : list N)
    (Hctx : has2dContext browser = true)
    (Hclip : startTime clip < endTime clip)
    (Hseek : Qabs (t0 - startTime clip) <= largestBelowHalf)
    (Hbefore : Forall (fun v => currentTime v < endTime clip) (v0 :: frames))
    (Hlast : endTime clip <= currentTime vlast) :
  let evs := CanPlay :: Seeked t0 :: PlayFulfilled v0
             :: map AnimationFrame frames
             ++ AnimationFrame vlast :: map DataAvailable sizes
             ++ [RecorderStopped] in
  let r := renderClip browser clip ratio evs in
  promise (fst r)
    = Resolved {| blobParts := filter (fun n => (0 <? n)%N) sizes;
                  blobType := chooseMimeType browser VideoMp4 |} /\
  recorder (fst r) = Some Inactive /\
  List.length (progressValues (snd r))
    = (List.length (v0 :: frames)
       + (if (paused vlast || ended vlast)%bool then 0 else 1))%nat /\
  Forall (fun v => exists q, v = Some q /\ 0 <= q <= 99) (progressValues (snd r)).
Proof.
  intros evs r. subst r evs.
  assert (Hseek' : Qabs (t0 - startTime clip) < 1 # 2).
  { apply Qle_lt_trans with largestBelowHalf; [exact Hseek | reflexivity]. }
  destruct (run_to_completion browser clip ratio t0 v0 frames vlast sizes
              Hctx Hseek' Hbefore Hlast) as (Hp & Hr & Hv).
  split; [exact Hp|]. split; [exact Hr|].
  rewrite Hv.
  assert (Hshown : forall t, exists q, reportedProgress clip t = Some q /\ 0 <= q <= 99).
  { intros t. rewrite (reportedProgress_finite clip Hclip).
    eexists. split; [reflexivity | apply clampProgress_bounds]. }
  split.
  - rewrite length_app, length_map.
    now destruct (paused vlast || ended vlast)%bool.
  - apply Forall_app. split.
    + apply Forall_map. apply Forall_forall. intros v _. apply Hshown.
    + destruct (paused vlast || ended vlast)%bool; repeat constructor.
      apply Hshown.
Qed.

Lemma render_runs_to_completion_witness :
  let r := renderClip chrome sampleClip PORTRAIT
             [CanPlay; Seeked 10; PlayFulfilled (frameAt 10);
              AnimationFrame (frameAt 15); AnimationFrame (frameAt 20);
              DataAvailable 1000; RecorderStopped] in
  promise (fst r) = Resolved {| blobParts := [1000%N]; blobType := VideoMp4 |} /\
  recorder (fst r) = Some Inactive /\
  List.length (progressValues (snd r)) = 3%nat /\
  Forall (fun v => exists q, v = Some q /\ 0 <= q <= 99) (progressValues (snd r)).
Proof.
  apply (render_runs_to_completion chrome sampleClip PORTRAIT 10 (frameAt 10)
           [frameAt 15] (frameAt 20) [1000%N]).
  - reflexivity.
  - reflexivity.
  - vm_compute. discriminate.
  - repeat constructor.
  - simpl. discriminate.
Defined.

(** ** [downloadClip]: what the caller does with the outcome *)

Lemma downloads_filter (effs : list Effect) :
  downloads effs = downloads (filter isAnchorClick effs).
Proof.
  induction effs as [|e effs IH]; [reflexivity|].
  destruct e; simpl; now rewrite ?IH.
Qed.

(** The callback adds nothing but [setDownloadProgress] calls. *)
Lemma progressCallback_filter (p : Effect -> bool) (effs : list Effect) :
  (forall e, p e = true -> isCallerEffect e = true) ->
  (forall v, p (SetDownloadProgress v) = false) ->
  Forall (fun e => isCallerEffect e = false) effs ->
  filter p (progressCallback effs) = [].
Proof.
  intros Hp Hv Hall. induction Hall as [|e effs He Hall IH]; [reflexivity|].
  assert (Hpe : p e = false).
  { destruct (p e) eqn:E; [|reflexivity]. apply Hp in E. congruence. }
  unfold progressCallback in *. simpl flat_map. rewrite filter_app, IH.
  destruct e; simpl; rewrite ?Hpe, ?Hv; reflexivity.
Qed.

Section Caller.

Variable clip : GeneratedClip.
Variable ratio : AspectRatio.

Lemma step_no_caller_effect (ev : Event) (s : RenderState) :
  Forall (fun e => isCallerEffect e = false) (snd (step clip ratio ev s)).
Proof.
  destruct ev; step_crush; repeat constructor.
Qed.

(** The code after [await] runs once, when the promise settles, and nothing
    else in [downloadClip] downloads, alerts or leaves the downloading
    state. *)
Lemma await_filter (p : Effect -> bool) (evs : list Event) (s : RenderState) :
  (forall e, p e = true -> isCallerEffect e = true) ->
  (forall v, p (SetDownloadProgress v) = false) ->
  filter p (await clip ratio evs s)
  = match promise s with
    | Pending => filter p (afterAwait (promise (fst (run clip ratio evs s))))
    | _ => []
    end.
Proof.
  intros Hp Hv. revert s. induction evs as [|ev evs IH]; intros s.
  - simpl. now destruct (promise s).
  - simpl await. rewrite run_cons. cbn [fst].
    pose proof (step_no_caller_effect ev s) as Hstep.
    destruct (step clip ratio ev s) as [s1 e1] eqn:E. cbn [fst snd] in *.
    rewrite !filter_app, (progressCallback_filter p e1 Hp Hv Hstep), IH.
    cbn [app].
    destruct (promise s) eqn:Hs.
    + unfold whenSettled. destruct (promise s1) eqn:Hs1.
      * reflexivity.
      * rewrite run_settled by congruence. rewrite Hs1. now rewrite app_nil_r.
      * rewrite run_settled by congruence. rewrite Hs1. now rewrite app_nil_r.
    + pose proof (step_settled clip ratio ev s) as Hk. rewrite E, Hs in Hk.
      cbn [fst] in Hk. rewrite Hk by discriminate. reflexivity.
    + pose proof (step_settled clip ratio ev s) as Hk. rewrite E, Hs in Hk.
      cbn [fst] in Hk. rewrite Hk by discriminate. reflexivity.
Qed.

End Caller.

Lemma downloadClip_filter (p : Effect -> bool) (browser : Browser)
    (clip : GeneratedClip) (ratio : AspectRatio) (evs : list Event) :
  (forall e, p e = true -> isCallerEffect e = true) ->
  (forall v, p (SetDownloadProgress v) = false) ->
  p (SetIsDownloading true) = false ->
  filter p (downloadClip browser clip ratio evs)
  = filter p (afterAwait (promise (fst (renderClip browser clip ratio evs)))).
Proof.
  intros Hp Hv Ht. unfold downloadClip, downloadClipWith.
  change (executorWith browser AudioContextReady) with (executor browser).
  rewrite renderClip_run. cbn [fst].
  destruct (executor browser blank) as [s0 e0] eqn:E.
  assert (He0 : Forall (fun e => isCallerEffect e = false) e0).
  { destruct (has2dContext browser) eqn:Hctx;
      [rewrite (executor_with_context browser Hctx) in E
      |rewrite (executor_without_context browser Hctx) in E];
      injection E as <- <-; repeat constructor. }
  rewrite !filter_app, (progressCallback_filter p e0 Hp Hv He0),
    (await_filter clip ratio p evs s0 Hp Hv).
  cbn [fst app]. simpl filter at 1. rewrite Ht, Hv. cbn [app].
  unfold whenSettled. destruct (promise s0) eqn:Hs0.
  - reflexivity.
  - rewrite run_settled by congruence. rewrite Hs0. now rewrite app_nil_r.
  - rewrite run_settled by congruence. rewrite Hs0. now rewrite app_nil_r.
Qed.

(** [downloadClip] saves a file exactly when the render resolved, and then it
    saves that blob, once, through an object URL that it revokes; it alerts
    exactly when the render was rejected; and it leaves the downloading state
    exactly when the promise has settled, so not at all while it is
    pending. *)
Theorem downloadClip_outcome
    (browser : Browser) (clip : GeneratedClip) (ratio : AspectRatio)
    (evs : list Event) :
  let effs := downloadClip browser clip ratio evs in
  let p := promise (fst (renderClip browser clip ratio evs)) in
  downloads effs = match p with Resolved b => [b] | _ => [] end /\
  occurrences isAlert effs = match p with Rejected _ => 1%nat | _ => 0%nat end /\
  occurrences isDownloadingOff effs
    = match p with Pending => 0%nat | _ => 1%nat end /\
  occurrences isCreateDownloadUrl effs = List.length (downloads effs) /\
  occurrences isRevokeDownloadUrl effs = List.length (downloads effs).
Proof.
  intros effs p. subst effs. unfold occurrences.
  rewrite downloads_filter.
  rewrite !downloadClip_filter;
    try (intros []; simpl; try discriminate; try reflexivity;
         (destruct u || destruct b); simpl; discriminate || reflexivity);
    try (intros; reflexivity); try reflexivity.
  fold p. destruct p; repeat split; reflexivity.
Qed.

(** ** The name of the saved file *)

Lemma safe_unit (c : ascii) :
  let c' := toLowerCaseUnit (if isAsciiAlnum c then c else "_"%char) in
  isSafeUnit c' = true /\
  toLowerCaseUnit (if isAsciiAlnum c' then c' else "_"%char) = c'.
Proof.
  destruct c as [[] [] [] [] [] [] [] []]; vm_compute; split; reflexivity.
Qed.

Lemma mapUnits_length (f : ascii -> ascii) (s : string) :
  String.length (mapUnits f s) = String.length s.
Proof. induction s as [|c s IH]; simpl; [reflexivity | now rewrite IH]. Qed.

Lemma string_length_append (s1 s2 : string) :
  String.length (s1 ++ s2)%string = (String.length s1 + String.length s2)%nat.
Proof. induction s1 as [|c s1 IH]; simpl; [reflexivity | now rewrite IH]. Qed.

(** The name under which a clip is saved keeps one character per character of
    the title, holds only lower-case ASCII letters, digits and underscores
    between its fixed prefix and suffix, and sanitizing twice changes nothing
    more. *)
Theorem safeTitle_safe (title : string) :
  String.length (safeTitle title) = String.length title /\
  Forall (fun c => isSafeUnit c = true) (list_ascii_of_string (safeTitle title)) /\
  safeTitle (safeTitle title) = safeTitle title /\
  String.length (downloadName title) = (String.length title + 10)%nat.
Proof.
  repeat split.
  - unfold safeTitle. now rewrite !mapUnits_length.
  - unfold safeTitle. induction title as [|c title IH]; simpl; constructor.
    + apply (safe_unit c).
    + exact IH.
  - unfold safeTitle. induction title as [|c title IH]; simpl; [reflexivity|].
    f_equal; [apply (safe_unit c) | exact IH].
  - unfold downloadName. rewrite !string_length_append.
    unfold safeTitle. rewrite !mapUnits_length. simpl. lia.
Qed.

Example safeTitle_example :
  downloadName "Rahasia Sukses: 10x!" = "pipel_rahasia_sukses__10x_.mp4"%string.
Proof. reflexivity. Qed.

(** ** The preview player *)



(** ** The clip-suggestion call: what the two paths keep *)




(** The fallback clips fit the video once it is long enough: for an iteration
    of at least 1 and a duration [d] of at most 2^32 seconds (all the
    integers involved are then far inside the range that doubles hold
    exactly) with [40 * iteration * (5 + iteration) <= d * (2 + iteration)]
    (80 seconds for the first iteration), every fallback clip has
    [0 <= startTime <= d - 5], [endTime <= d] and [startTime < endTime]. *)
Theorem fallbackClips_fit_long_videos
    (fileName : string) (duration : Q) (iteration : N)
    (Hit : (1 <= iteration)%N)
    (Hsafe : duration <= 4294967296)
    (Hlong : 40 * inject_Z (Z.of_N iteration) * (5 + inject_Z (Z.of_N iteration))
             <= duration * (2 + inject_Z (Z.of_N iteration))) :
  Forall (fun c => 0 <= startTime c <= duration - 5 /\
                   endTime c <= duration /\
                   startTime c < endTime c)
         (fallbackClips fileName duration iteration).
Proof.
  unfold fallbackClips.
  set (I := Z.of_N iteration) in *.
  assert (HI : (1 <= I)%Z) by (subst I; lia).
  assert (HIq : 1 <= inject_Z I)
    by (change 1 with (inject_Z 1); now rewrite <- Zle_Qle).
  set (k := inject_Z (5 + I)).
  assert (Hk : k == 5 + inject_Z I) by (subst k; now rewrite inject_Z_plus).
  set (x := duration / k).
  assert (Hd : duration == x * k) by (subst x; field; lra).
  set (seg := Qfloor x).
  assert (Hx : 0 <= x).
  { subst x. apply Qle_shift_div_l; [lra|]. rewrite Qmult_0_l.
    apply Qnot_lt_le. intros Hneg.
    assert (duration * (2 + inject_Z I) < 0); [|nra]. nra. }
  assert (Hseg : inject_Z seg <= x) by apply Qfloor_le.
  assert (Hseg0 : 0 <= inject_Z seg).
  { change 0 with (inject_Z 0). rewrite <- Zle_Qle.
    change 0%Z with (Qfloor 0). now apply Qfloor_resp_le. }
  assert (Hfit : 3 * x + 40 * inject_Z I <= duration).
  { rewrite Hd, Hk. rewrite Hd, Hk in Hlong.
    assert (H25 : 0 < 5 + inject_Z I) by lra.
    apply Qnot_lt_le. intros Hc.
    assert (Hc' : (x * (5 + inject_Z I) - 3 * x) * (5 + inject_Z I)
                  < 40 * inject_Z I * (5 + inject_Z I))
      by (apply Qmult_lt_compat_r; lra).
    nra. }
  assert (Hclip : forall i : Z, (0 <= i <= 3)%Z ->
            0 <= inject_Z (i * seg + 10 * I) <= duration - 5 /\
            inject_Z (i * seg + 40 * I) <= duration /\
            inject_Z (i * seg + 10 * I) < inject_Z (i * seg + 40 * I)).
  { intros i [Hi0 Hi3].
    rewrite !inject_Z_plus, !inject_Z_mult.
    assert (Hi0q : 0 <= inject_Z i)
      by (change 0 with (inject_Z 0); now rewrite <- Zle_Qle).
    assert (Hi3q : inject_Z i <= 3)
      by (change 3 with (inject_Z 3); now rewrite <- Zle_Qle).
    assert (Hprod0 : 0 <= inject_Z i * inject_Z seg)
      by now apply Qmult_le_0_compat.
    assert (Hprod3 : inject_Z i * inject_Z seg <= 3 * x).
    { apply Qle_trans with (3 * inject_Z seg).
      - apply Qmult_le_compat_r; assumption.
      - rewrite (Qmult_comm 3 (inject_Z seg)), (Qmult_comm 3 x).
        apply Qmult_le_compat_r; [assumption | lra]. }
    change (inject_Z 10) with 10. change (inject_Z 40) with 40.
    repeat split; lra. }
  cbn [map seq].
  repeat (apply Forall_cons;
          [cbn [startTime endTime];
           match goal with
           | |- context [inject_Z (Z.of_nat ?i * seg + _)] =>
               apply (Hclip (Z.of_nat i)); lia
           end|]).
  apply Forall_nil.
Qed.

Lemma fallbackClips_fit_long_videos_witness :
  Forall (fun c => 0 <= startTime c <= 600 - 5 /\
                   endTime c <= 600 /\
                   startTime c < endTime c)
         (fallbackClips "talk.mp4" 600 1).
Proof.
  apply (fallbackClips_fit_long_videos "talk.mp4" 600 1).
  - discriminate.
  - discriminate.
  - discriminate.
Defined.

(** ** The application shell *)

Lemma App_run_app (evs1 evs2 : list App.Event) (s : App.State) :
  App.run (evs1 ++ evs2) s = App.run evs2 (App.run evs1 s).
Proof. unfold App.run. apply fold_left_app. Qed.

Lemma App_run_cons (ev : App.Event) (evs : list App.Event) (s : App.State) :
  App.run (ev :: evs) s = App.run evs (App.dispatch ev s).
Proof. reflexivity. Qed.

(** The interval touches [progress], [timeRemaining] and its own counter,
    and nothing else. *)
Lemma App_ticks_frame (n : nat) (s : App.State) :
  let s' := App.run (App.ticks n) s in
  App.currentSegment s' = App.currentSegment s /\
  App.config s' = App.config s /\
  App.clips s' = App.clips s /\
  App.videoDuration s' = App.videoDuration s /\
  App.isProcessing s' = App.isProcessing s /\
  App.isGeneratingMore s' = App.isGeneratingMore s /\
  App.iteration s' = App.iteration s /\
  App.intervalRunning s' = App.intervalRunning s /\
  App.analysis s' = App.analysis s /\
  App.timeoutPending s' = App.timeoutPending s /\
  App.more s' = App.more s.
Proof.
  revert s. induction n as [|n IH]; intros s; [simpl; tauto|].
  unfold App.ticks. simpl repeat. rewrite App_run_cons.
  specialize (IH (App.dispatch App.IntervalTick s)). cbv zeta in *.
  unfold App.ticks in IH.
  destruct IH as (H1 & H2 & H3 & H4 & H5 & H6 & H7 & H8 & H9 & H10 & H11).
  rewrite H1, H2, H3, H4, H5, H6, H7, H8, H9, H10, H11.
  unfold App.dispatch. destruct (App.intervalRunning s) eqn:E; simpl; tauto.
Qed.

(** One callback of the interval raises the counter by 2 and holds it at
    90. *)
Lemma App_intervalTick_progress (s : App.State) :
  App.currentProgress (App.intervalTick s)
    == Qmin 90 (App.currentProgress s + 2) /\
  App.progress (App.intervalTick s) = App.currentProgress (App.intervalTick s).
Proof.
  split; [|reflexivity]. simpl.
  assert (Hstep : 100 / App.steps == 2) by reflexivity.
  destruct (Qgeb (App.currentProgress s + 100 / App.steps) 90) eqn:E.
  - apply Qgeb_le in E. rewrite Hstep in E. symmetry. apply Q.min_l. exact E.
  - apply Qgeb_lt in E. rewrite Hstep in *. symmetry. apply Q.min_r. lra.
Qed.

(** The estimate shown by a callback of the interval, while the counter is
    between 0 and 90, is between 1 and 5 seconds. *)
Lemma App_intervalTick_seconds (s : App.State) :
  0 <= App.currentProgress s <= 90 ->
  exists k, App.timeRemaining (App.intervalTick s) = App.SecondsLeft k
            /\ (1 <= k <= 5)%Z.
Proof.
  intros [H0 H90]. eexists. split; [reflexivity|].
  set (x := (App.steps - (App.currentProgress s + 100 / App.steps)
                         / (100 / App.steps)) * App.intervalTime / 1000).
  assert (Hx : x == (49 - App.currentProgress s * (1 # 2)) * (1 # 10)).
  { assert (H50 : App.steps == 50) by reflexivity.
    assert (H2 : 100 / App.steps == 2) by reflexivity.
    assert (H100 : App.intervalTime == 100) by reflexivity.
    subst x. rewrite H2, H50, H100. field. }
  assert (Hlo : 0 < x) by (rewrite Hx; lra).
  assert (Hhi : x <= 49 # 10) by (rewrite Hx; lra).
  pose proof (Qle_ceiling x) as Hc1.
  pose proof (Qceiling_lt x) as Hc2.
  split.
  - assert (H : 0 < inject_Z (Qceiling x)) by lra.
    change 0 with (inject_Z 0) in H. rewrite <- Zlt_Qlt in H. lia.
  - assert (H : inject_Z (Qceiling x - 1) < inject_Z 5).
    { apply Qlt_le_trans with x; [exact Hc2|].
      change (inject_Z 5) with 5. lra. }
    rewrite <- Zlt_Qlt in H. lia.
Qed.

Lemma App_ticks_progress (n : nat) (s : App.State) :
  App.intervalRunning s = true ->
  0 <= App.currentProgress s <= 90 ->
  let s' := App.run (App.ticks n) s in
  App.currentProgress s'
    == Qmin 90 (App.currentProgress s + 2 * inject_Z (Z.of_nat n)) /\
  0 <= App.currentProgress s' <= 90 /\
  (App.progress s = App.currentProgress s ->
   App.progress s' = App.currentProgress s') /\
  ((1 <= n)%nat ->
   App.progress s' = App.currentProgress s' /\
   exists k, App.timeRemaining s' = App.SecondsLeft k /\ (1 <= k <= 5)%Z).
Proof.
  revert s. induction n as [|n IH]; intros s Hrun Hcp.
  - simpl. repeat split; try tauto; try lia.
    rewrite Qmult_0_r, Qplus_0_r. symmetry. apply Q.min_r. tauto.
  - (* the last callback is the one that shows *)
    cbv zeta. unfold App.ticks.
    replace (repeat App.IntervalTick (S n))
      with (repeat App.IntervalTick n ++ [App.IntervalTick])
      by (symmetry; apply (repeat_cons n App.IntervalTick)).
    rewrite App_run_app. fold (App.ticks n).
    destruct (IH s Hrun Hcp) as (Heq & Hb & _ & _).
    destruct (App_ticks_frame n s) as (_ & _ & _ & _ & _ & _ & _ & Hr & _).
    set (sn := App.run (App.ticks n) s) in *.
    assert (Hlast : App.run [App.IntervalTick] sn = App.intervalTick sn).
    { unfold App.run. simpl. now rewrite Hr, Hrun. }
    rewrite Hlast.
    destruct (App_intervalTick_progress sn) as [Hp Hq].
    assert (Hval : App.currentProgress (App.intervalTick sn)
                   == Qmin 90 (App.currentProgress s
                               + 2 * inject_Z (Z.of_nat (S n)))).
    { rewrite Hp, Heq, Nat2Z.inj_succ. unfold Z.succ.
      rewrite inject_Z_plus. change (inject_Z 1) with 1.
      rewrite <- Q.plus_min_distr_r.
      rewrite Q.min_assoc.
      assert (H92 : Qmin 90 (90 + 2) == 90) by reflexivity.
      rewrite H92. apply Q.min_compat; [reflexivity | ring]. }
    split; [exact Hval|]. split.
    { rewrite Hp. split.
      - apply Q.min_glb; lra.
      - apply Q.le_min_l. }
    split; [intros _; exact Hq|].
    intros _. split; [exact Hq|]. now apply App_intervalTick_seconds.
Qed.

(** While an analysis waits, after [n] callbacks of the interval the progress
    shown is [min(90, 2n)]: it climbs by 2 per callback and is held at 90, and
    from the first callback on the estimate shown is between 1 and 5 seconds
    and never reaches 0. *)
Theorem simulated_progress_held_at_90 (cfg : App.VideoConfig) (f : App.File)
    (n : nat) (Hfile : App.file cfg = Some f) :
  let s := App.run (App.Analyze cfg :: App.ticks n) App.initial in
  App.isProcessing s = true /\
  App.progress s == Qmin 90 (2 * inject_Z (Z.of_nat n)) /\
  App.progress s <= 90 /\
  ((1 <= n)%nat ->
   exists k, App.timeRemaining s = App.SecondsLeft k /\ (1 <= k <= 5)%Z).
Proof.
  cbv zeta. rewrite App_run_cons.
  assert (Hstart : App.dispatch (App.Analyze cfg) App.initial
                   = App.handleAnalyze cfg App.initial)
    by (unfold App.dispatch; simpl; now rewrite Hfile).
  rewrite Hstart.
  set (s0 := App.handleAnalyze cfg App.initial).
  destruct (App_ticks_frame n s0) as (_ & _ & _ & _ & Hproc & _).
  destruct (App_ticks_progress n s0) as (Heq & Hb & Hp & Hk);
    [reflexivity | simpl; lra |].
  rewrite Hproc. split; [reflexivity|].
  rewrite (Hp eq_refl). split; [|split; [tauto|]].
  - rewrite Heq. simpl App.currentProgress. now rewrite Qplus_0_l.
  - intros Hn. apply (Hk Hn).
Qed.

Lemma simulated_progress_held_at_90_witness :
  let cfg := {| App.file := Some {| App.name := "talk.mp4"; App.size := 1000 |};
                App.length := App.AUTO; App.genre := App.PODCAST;
                App.aspectRatio := PORTRAIT; App.prompt := "" |} in
  App.progress (App.run (App.Analyze cfg :: App.ticks 60) App.initial) <= 90.
Proof.
  apply (simulated_progress_held_at_90 _ {| App.name := "talk.mp4"; App.size := 1000 |} 60).
  reflexivity.
Defined.

(** The state while an analysis whose video duration is known waits for the
    service. *)
Lemma App_waiting_state (cfg : App.VideoConfig) (f : App.File) (d : Q) (n : nat) :
  App.file cfg = Some f ->
  let s := App.run (App.Analyze cfg :: App.DurationLoaded d :: App.ticks n)
             App.initial in
  App.currentSegment s = App.Segment1 /\
  App.config s = Some cfg /\
  App.isProcessing s = true /\
  App.intervalRunning s = true /\
  App.analysis s = Some {| App.videoConfig := cfg; App.duration := d;
                           App.awaitingDuration := false |} /\
  App.timeoutPending s = false /\
  App.more s = None /\
  App.iteration s = 1%N /\
  App.videoDuration s = d /\
  0 <= App.currentProgress s <= 90.
Proof.
  intros Hfile. cbv zeta. rewrite !App_run_cons.
  assert (Hstart : App.dispatch (App.DurationLoaded d)
                     (App.dispatch (App.Analyze cfg) App.initial)
                   = App.durationSettled (Some d)
                       {| App.videoConfig := cfg; App.duration := 600;
                          App.awaitingDuration := true |}
                       (App.handleAnalyze cfg App.initial))
    by (unfold App.dispatch; simpl; rewrite Hfile; simpl; now rewrite Hfile).
  rewrite Hstart.
  set (s0 := App.durationSettled _ _ _).
  destruct (App_ticks_frame n s0)
    as (H1 & H2 & _ & H4 & H5 & _ & H7 & H8 & H9 & H10 & H11).
  destruct (App_ticks_progress n s0) as (_ & Hb & _);
    [reflexivity | simpl; lra |].
  rewrite H1, H2, H4, H5, H7, H8, H9, H10, H11.
  repeat split; try reflexivity; apply Hb.
Qed.

(** When the service answers, [handleAnalyze] shows 100 and "Complete", but
    the interval keeps running for the 500 ms until the timer fires: its next
    callback puts the progress back to at most 90 and replaces "Complete" by a
    number of seconds left. *)
Theorem completion_overwritten_by_interval
    (cfg : App.VideoConfig) (f : App.File) (d : Q) (n : nat)
    (response : ServiceResponse) (now : nat -> Z)
    (Hfile : App.file cfg = Some f) :
  let answered :=
    App.run (App.Analyze cfg :: App.DurationLoaded d :: App.ticks n
             ++ [App.ServiceAnswered response now]) App.initial in
  let next := App.dispatch App.IntervalTick answered in
  App.progress answered = 100 /\
  App.timeRemaining answered = App.Complete /\
  App.progress next <= 90 /\
  (exists k, App.timeRemaining next = App.SecondsLeft k /\ (1 <= k <= 5)%Z) /\
  App.view next = App.ProcessingCard.
Proof.
  cbv zeta.
  change (App.Analyze cfg :: App.DurationLoaded d :: App.ticks n ++ ?l)
    with ((App.Analyze cfg :: App.DurationLoaded d :: App.ticks n) ++ l).
  rewrite App_run_app.
  destruct (App_waiting_state cfg f d n Hfile)
    as (Hseg & Hcfg & Hproc & Hrun & Han & Hto & Hmore & Hit & Hd & Hcp).
  set (s := App.run (App.Analyze cfg :: App.DurationLoaded d :: App.ticks n)
              App.initial) in *.
  assert (Hans : App.run [App.ServiceAnswered response now] s
                 = App.analysisAnswered response now
                     {| App.videoConfig := cfg; App.duration := d;
                        App.awaitingDuration := false |} s)
    by (unfold App.run; simpl; now rewrite Han).
  rewrite Hans. set (a := App.analysisAnswered _ _ _ s).
  assert (Htick : App.dispatch App.IntervalTick a = App.intervalTick a)
    by (unfold App.dispatch; subst a; simpl; now rewrite Hrun).
  rewrite Htick.
  destruct (App_intervalTick_progress a) as [Hp Hq].
  repeat split.
  - rewrite Hq, Hp. apply Q.le_min_l.
  - apply App_intervalTick_seconds. exact Hcp.
  - unfold App.view. simpl. now rewrite Hseg, Hproc.
Qed.

Lemma completion_overwritten_by_interval_witness :
  let cfg := {| App.file := Some {| App.name := "talk.mp4"; App.size := 1000 |};
                App.length := App.AUTO; App.genre := App.PODCAST;
                App.aspectRatio := PORTRAIT; App.prompt := "" |} in
  let answered :=
    App.run (App.Analyze cfg :: App.DurationLoaded 600 :: App.ticks 3
             ++ [App.ServiceAnswered ServiceThrows (fun _ => 0%Z)]) App.initial in
  App.progress answered = 100 /\
  App.progress (App.dispatch App.IntervalTick answered) <= 90.
Proof.
  destruct (completion_overwritten_by_interval
              {| App.file := Some {| App.name := "talk.mp4"; App.size := 1000 |};
                 App.length := App.AUTO; App.genre := App.PODCAST;
                 App.aspectRatio := PORTRAIT; App.prompt := "" |}
              {| App.name := "talk.mp4"; App.size := 1000 |} 600 3
              ServiceThrows (fun _ => 0%Z) eq_refl)
    as (H1 & _ & H3 & _).
  split; [exact H1 | exact H3].
Defined.

(** "Cancel Analysis" does not stop the pending call: when the service
    answers afterwards, [handleAnalyze] carries on, and its timer switches to
    the preview although [handleCancel] has cleared [config], so neither the
    upload form nor the preview is rendered. *)
Theorem cancelled_analysis_still_completes
    (cfg : App.VideoConfig) (f : App.File) (d : Q) (n : nat)
    (response : ServiceResponse) (now : nat -> Z)
    (Hfile : App.file cfg = Some f) :
  let cancelled :=
    App.run (App.Analyze cfg :: App.DurationLoaded d :: App.ticks n
             ++ [App.Cancel]) App.initial in
  let s := App.run [App.ServiceAnswered response now; App.TimeoutFired]
             cancelled in
  App.view cancelled = App.UploadForm /\
  App.config s = None /\
  App.currentSegment s = App.Segment2 /\
  App.clips s = analyzeVideoForClips response now (App.name f) d 1 /\
  App.view s = App.Nothing.
Proof.
  cbv zeta.
  change (App.Analyze cfg :: App.DurationLoaded d :: App.ticks n ++ ?l)
    with ((App.Analyze cfg :: App.DurationLoaded d :: App.ticks n) ++ l).
  rewrite App_run_app.
  destruct (App_waiting_state cfg f d n Hfile)
    as (Hseg & Hcfg & Hproc & Hrun & Han & Hto & Hmore & Hit & Hd & Hcp).
  set (s := App.run (App.Analyze cfg :: App.DurationLoaded d :: App.ticks n)
              App.initial) in *.
  assert (Hc : App.run [App.Cancel] s = App.handleCancel s)
    by (unfold App.run, App.dispatch, App.view; simpl; now rewrite Hseg, Hproc).
  rewrite Hc.
  unfold App.run, App.dispatch, App.view, App.fileNameOf. simpl.
  rewrite Hseg, Han. simpl. unfold App.fileNameOf. rewrite Hfile.
  now repeat split.
Qed.

Lemma cancelled_analysis_still_completes_witness :
  let cfg := {| App.file := Some {| App.name := "talk.mp4"; App.size := 1000 |};
                App.length := App.AUTO; App.genre := App.PODCAST;
                App.aspectRatio := PORTRAIT; App.prompt := "" |} in
  App.view
    (App.run (App.Analyze cfg :: App.DurationLoaded 600 :: App.ticks 5
              ++ [App.Cancel; App.ServiceAnswered ServiceThrows (fun _ => 0%Z);
                  App.TimeoutFired]) App.initial)
  = App.Nothing.
Proof.
  cbv zeta.
  change (?a :: ?b :: App.ticks 5 ++ [App.Cancel; ?c; ?d])
    with ((a :: b :: App.ticks 5 ++ [App.Cancel]) ++ [c; d]).
  rewrite App_run_app.
  apply (cancelled_analysis_still_completes
           {| App.file := Some {| App.name := "talk.mp4"; App.size := 1000 |};
              App.length := App.AUTO; App.genre := App.PODCAST;
              App.aspectRatio := PORTRAIT; App.prompt := "" |}
           {| App.name := "talk.mp4"; App.size := 1000 |} 600 5
           ServiceThrows (fun _ => 0%Z) eq_refl).
Defined.

(** What the preview gets: the clips of the answer, as they are.  When the
    service call fails the fallback clips are shown; when it answers with an
    empty array the preview is mounted without a clip and fails. *)
Theorem preview_after_analysis
    (cfg : App.VideoConfig) (f : App.File) (d : Q) (n m : nat)
    (response : ServiceResponse) (now : nat -> Z)
    (Hfile : App.file cfg = Some f) :
  let s := App.run (App.Analyze cfg :: App.DurationLoaded d :: App.ticks n
                    ++ App.ServiceAnswered response now :: App.ticks m
                    ++ [App.TimeoutFired]) App.initial in
  App.clips s = analyzeVideoForClips response now (App.name f) d 1 /\
  App.isProcessing s = false /\
  App.intervalRunning s = false /\
  (response = Parsed [] -> App.view s = App.PreviewFails) /\
  (response = ServiceThrows \/ response = EmptyText \/ response = ParseThrows ->
   App.view s = App.PreviewShown).
Proof.
  cbv zeta.
  change (App.Analyze cfg :: App.DurationLoaded d :: App.ticks n ++ ?l)
    with ((App.Analyze cfg :: App.DurationLoaded d :: App.ticks n) ++ l).
  rewrite App_run_app.
  destruct (App_waiting_state cfg f d n Hfile)
    as (Hseg & Hcfg & Hproc & Hrun & Han & Hto & Hmore & Hit & Hd & Hcp).
  set (s := App.run (App.Analyze cfg :: App.DurationLoaded d :: App.ticks n)
              App.initial) in *.
  rewrite App_run_cons.
  assert (Hans : App.dispatch (App.ServiceAnswered response now) s
                 = App.analysisAnswered response now
                     {| App.videoConfig := cfg; App.duration := d;
                        App.awaitingDuration := false |} s)
    by (unfold App.dispatch; now rewrite Han).
  rewrite Hans. set (a := App.analysisAnswered _ _ _ s).
  rewrite App_run_app.
  destruct (App_ticks_frame m a)
    as (H1 & H2 & H3 & _ & _ & _ & _ & _ & _ & H10 & _).
  set (w := App.run (App.ticks m) a) in *.
  assert (Hfire : App.run [App.TimeoutFired] w = App.timeoutFired w)
    by (unfold App.run, App.dispatch; simpl; rewrite H10; reflexivity).
  rewrite Hfire. unfold App.view. simpl. rewrite H2, H3. subst a. simpl.
  rewrite Hcfg. unfold App.fileNameOf. simpl. rewrite Hfile.
  repeat split.
  - intros ->. reflexivity.
  - intros [-> | [-> | ->]]; reflexivity.
Qed.

Lemma preview_after_analysis_witness :
  let cfg := {| App.file := Some {| App.name := "talk.mp4"; App.size := 1000 |};
                App.length := App.AUTO; App.genre := App.PODCAST;
                App.aspectRatio := PORTRAIT; App.prompt := "" |} in
  App.view
    (App.run (App.Analyze cfg :: App.DurationLoaded 600 :: App.ticks 2
              ++ App.ServiceAnswered (Parsed []) (fun _ => 0%Z) :: App.ticks 1
              ++ [App.TimeoutFired]) App.initial)
  = App.PreviewFails.
Proof.
  apply (preview_after_analysis
           {| App.file := Some {| App.name := "talk.mp4"; App.size := 1000 |};
              App.length := App.AUTO; App.genre := App.PODCAST;
              App.aspectRatio := PORTRAIT; App.prompt := "" |}
           {| App.name := "talk.mp4"; App.size := 1000 |} 600 2 1
           (Parsed []) (fun _ => 0%Z) eq_refl).
  reflexivity.
Defined.

(** *** Clip ids over a session *)

Lemma mapi_from_index {A : Type} (f : nat -> A -> GeneratedClip) (n : nat)
    (l : list A) :
  (forall i x, idIndex (id (f i x)) = i) ->
  map (fun c => idIndex (id c)) (mapi_from f n l) = seq n (List.length l).
Proof.
  intros H. revert n. induction l as [|x l IH]; intros n; simpl; [reflexivity|].
  now rewrite H, IH.
Qed.

(** The ids of one answer are pairwise distinct and carry its iteration. *)
Lemma analyzeVideoForClips_ids (response : ServiceResponse) (now : nat -> Z)
    (fileName : string) (videoDuration : Q) (iteration : N) :
  let r := analyzeVideoForClips response now fileName videoDuration iteration in
  NoDup (map id r) /\ Forall (fun c => idIteration (id c) = iteration) r.
Proof.
  cbv zeta. split.
  - apply NoDup_map_inv with (f := idIndex). rewrite map_map.
    destruct response; simpl;
      try (repeat constructor; simpl; intuition discriminate).
    unfold mapi. rewrite mapi_from_index by reflexivity. apply seq_NoDup.
  - destruct response; simpl; try (repeat constructor).
    unfold mapi. now apply mapi_from_Forall.
Qed.

(** What "+ Generate More" relies on: the ids in the list are distinct and
    none comes from a later iteration than the current one. *)
Lemma App_round_ids (response : ServiceResponse) (now : nat -> Z) (s : App.State) :
  NoDup (map id (App.clips s)) ->
  Forall (fun c => (idIteration (id c) <= App.iteration s)%N) (App.clips s) ->
  App.more s = None ->
  App.isGeneratingMore s = false ->
  let s' := App.dispatch (App.MoreAnswered response now)
              (App.dispatch App.GenerateMore s) in
  NoDup (map id (App.clips s')) /\
  Forall (fun c => (idIteration (id c) <= App.iteration s')%N) (App.clips s') /\
  App.more s' = None /\
  App.isGeneratingMore s' = false /\
  (exists newer, App.clips s' = newer ++ App.clips s) /\
  (App.view s = App.PreviewShown ->
   App.view s' = App.PreviewShown /\
   App.iteration s' = (App.iteration s + 1)%N).
Proof.
  intros Hnd Hall Hmore Hgen. cbv zeta.
  assert (Hskip : App.dispatch (App.MoreAnswered response now) s = s)
    by (unfold App.dispatch; now rewrite Hmore).
  assert (Hg : App.dispatch App.GenerateMore s
               = match App.view s with
                 | App.PreviewShown => App.handleGenerateMore s
                 | _ => s
                 end)
    by (unfold App.dispatch; rewrite Hgen, Hmore;
        now destruct (App.view s)).
  rewrite Hg. clear Hg.
  destruct (App.view s) eqn:Hview;
    try (rewrite Hskip; repeat split; try assumption;
         [now exists [] | discriminate | discriminate]).
  assert (Hcfg : exists cfg, App.config s = Some cfg).
  { unfold App.view in Hview. destruct (App.currentSegment s).
    - destruct (App.isProcessing s); discriminate.
    - destruct (App.config s) as [cfg|]; [now exists cfg | discriminate]. }
  destruct Hcfg as [cfg Hcfg].
  unfold App.handleGenerateMore. rewrite Hcfg.
  unfold App.dispatch. cbn [App.more].
  unfold App.moreAnswered.
  cbn [App.clips App.iteration App.more App.isGeneratingMore App.moreConfig
         App.moreDuration App.nextIteration].
  set (newer := analyzeVideoForClips response now (App.fileNameOf cfg)
                  (App.videoDuration s) (App.iteration s + 1)).
  destruct (analyzeVideoForClips_ids response now (App.fileNameOf cfg)
              (App.videoDuration s) (App.iteration s + 1)) as [Hnew Hiter].
  fold newer in Hnew, Hiter.
  rewrite Forall_forall in Hall, Hiter.
  repeat split.
  - rewrite map_app. apply NoDup_app; [exact Hnew | exact Hnd |].
    intros a Ha Hb. apply in_map_iff in Ha, Hb.
    destruct Ha as (c & <- & Hc). destruct Hb as (c' & Heq & Hc').
    specialize (Hiter c Hc). specialize (Hall c' Hc').
    rewrite Heq, Hiter in Hall. lia.
  - apply Forall_app. split; apply Forall_forall; intros c Hc.
    + rewrite (Hiter c Hc). lia.
    + specialize (Hall c Hc). lia.
  - now exists newer.
  - unfold App.view in *. simpl.
    destruct (App.currentSegment s); [destruct (App.isProcessing s); discriminate|].
    rewrite Hcfg in *. destruct (App.clips s); [discriminate|].
    now destruct newer.
Qed.

(** The state the preview starts from. *)
Lemma App_preview_state (cfg : App.VideoConfig) (f : App.File) (d : Q)
    (n m : nat) (response : ServiceResponse) (now : nat -> Z) :
  App.file cfg = Some f ->
  let s := App.run (App.Analyze cfg :: App.DurationLoaded d :: App.ticks n
                    ++ App.ServiceAnswered response now :: App.ticks m
                    ++ [App.TimeoutFired]) App.initial in
  App.clips s = analyzeVideoForClips response now (App.name f) d 1 /\
  App.iteration s = 1%N /\
  App.more s = None /\
  App.isGeneratingMore s = false /\
  App.currentSegment s = App.Segment2 /\
  App.config s = Some cfg.
Proof.
  intros Hfile. cbv zeta.
  change (App.Analyze cfg :: App.DurationLoaded d :: App.ticks n ++ ?l)
    with ((App.Analyze cfg :: App.DurationLoaded d :: App.ticks n) ++ l).
  rewrite App_run_app.
  destruct (App_waiting_state cfg f d n Hfile)
    as (Hseg & Hcfg & Hproc & Hrun & Han & Hto & Hmore & Hit & Hd & Hcp).
  destruct (App_ticks_frame n (App.run [App.Analyze cfg; App.DurationLoaded d]
                                 App.initial))
    as (_ & _ & _ & _ & _ & Hgen & _).
  set (s := App.run (App.Analyze cfg :: App.DurationLoaded d :: App.ticks n)
              App.initial) in *.
  rewrite App_run_cons.
  assert (Hans : App.dispatch (App.ServiceAnswered response now) s
                 = App.analysisAnswered response now
                     {| App.videoConfig := cfg; App.duration := d;
                        App.awaitingDuration := false |} s)
    by (unfold App.dispatch; now rewrite Han).
  rewrite Hans. set (a := App.analysisAnswered _ _ _ s).
  rewrite App_run_app.
  destruct (App_ticks_frame m a)
    as (H1 & H2 & H3 & _ & _ & H6 & H7 & _ & _ & H10 & H11).
  set (w := App.run (App.ticks m) a) in *.
  assert (Hfire : App.run [App.TimeoutFired] w = App.timeoutFired w)
    by (unfold App.run, App.dispatch; simpl; rewrite H10; reflexivity).
  rewrite Hfire. simpl. rewrite H2, H3, H6, H7, H11. subst a. simpl.
  unfold App.fileNameOf. rewrite Hfile, Hit, Hmore, Hcfg.
  repeat split.
  change (App.run (App.Analyze cfg :: App.DurationLoaded d :: App.ticks n)
            App.initial)
    with (App.run (App.ticks n)
            (App.run [App.Analyze cfg; App.DurationLoaded d] App.initial))
    in s.
  subst s. rewrite Hgen. unfold App.run, App.dispatch. simpl.
  rewrite Hfile. simpl. now rewrite Hfile.
Qed.

Lemma App_rounds_ids (rounds : list (ServiceResponse * (nat -> Z)))
    (s : App.State) :
  NoDup (map id (App.clips s)) ->
  Forall (fun c => (idIteration (id c) <= App.iteration s)%N) (App.clips s) ->
  App.more s = None ->
  App.isGeneratingMore s = false ->
  let s' := App.run (flat_map (fun r => [App.GenerateMore;
                                         App.MoreAnswered (fst r) (snd r)])
                       rounds) s in
  NoDup (map id (App.clips s')) /\
  (exists newer, App.clips s' = newer ++ App.clips s) /\
  (App.view s = App.PreviewShown ->
   App.iteration s' = (App.iteration s + N.of_nat (List.length rounds))%N).
Proof.
  revert s. induction rounds as [|[resp nw] rounds IH];
    intros s Hnd Hall Hmore Hgen.
  - simpl. repeat split; [assumption | now exists [] | intros _; lia].
  - cbv zeta. simpl flat_map. cbn [app fst snd]. rewrite !App_run_cons.
    destruct (App_round_ids resp nw s Hnd Hall Hmore Hgen)
      as (Hnd' & Hall' & Hmore' & Hgen' & (newer & Hnewer) & Hnext).
    destruct (IH _ Hnd' Hall' Hmore' Hgen') as (R1 & (newer' & R2) & R3).
    repeat split.
    + exact R1.
    + exists (newer' ++ newer). rewrite R2, Hnewer. now rewrite app_assoc.
    + intros Hview. destruct (Hnext Hview) as [Hview' Hit'].
      rewrite (R3 Hview'), Hit'. simpl List.length. lia.
Qed.

(** Over a session (one analysis, then any number of "+ Generate More", each
    answered before the next), the ids of the clips in the list stay pairwise
    distinct, whichever path produced them; and when the preview has a clip to
    show, every round raises the iteration by one and puts its clips in front
    of the earlier ones. *)
Theorem session_clip_ids_distinct
    (cfg : App.VideoConfig) (f : App.File) (d : Q) (n m : nat)
    (response : ServiceResponse) (now : nat -> Z)
    (rounds : list (ServiceResponse * (nat -> Z)))
    (Hfile : App.file cfg = Some f) :
  let s0 := App.run (App.Analyze cfg :: App.DurationLoaded d :: App.ticks n
                     ++ App.ServiceAnswered response now :: App.ticks m
                     ++ [App.TimeoutFired]) App.initial in
  let s := App.run (flat_map (fun r => [App.GenerateMore;
                                        App.MoreAnswered (fst r) (snd r)])
                      rounds) s0 in
  NoDup (map id (App.clips s)) /\
  (exists newer, App.clips s = newer ++ App.clips s0) /\
  (App.clips s0 <> [] ->
   App.iteration s = (1 + N.of_nat (List.length rounds))%N).
Proof.
  cbv zeta.
  destruct (App_preview_state cfg f d n m response now Hfile)
    as (Hclips & Hit & Hmore & Hgen & Hseg & Hcfg).
  set (s0 := App.run _ App.initial) in *.
  assert (Hnd : NoDup (map id (App.clips s0)))
    by (rewrite Hclips; apply analyzeVideoForClips_ids).
  assert (Hall : Forall (fun c => (idIteration (id c) <= App.iteration s0)%N)
                        (App.clips s0)).
  { rewrite Hclips, Hit.
    eapply Forall_impl; [|apply analyzeVideoForClips_ids].
    intros c ->. lia. }
  destruct (App_rounds_ids rounds s0 Hnd Hall Hmore Hgen) as (R1 & R2 & R3).
  repeat split; [exact R1 | exact R2 |].
  intros Hne. rewrite R3, Hit; [reflexivity|].
  unfold App.view. rewrite Hseg, Hcfg.
  destruct (App.clips s0); [contradiction | reflexivity].
Qed.

Lemma session_clip_ids_distinct_witness :
  let cfg := {| App.file := Some {| App.name := "talk.mp4"; App.size := 1000 |};
                App.length := App.AUTO; App.genre := App.PODCAST;
                App.aspectRatio := PORTRAIT; App.prompt := "" |} in
  let s0 := App.run (App.Analyze cfg :: App.DurationLoaded 600 :: App.ticks 2
                     ++ App.ServiceAnswered ServiceThrows (fun _ => 0%Z)
                     :: App.ticks 1 ++ [App.TimeoutFired]) App.initial in
  NoDup (map id (App.clips
                   (App.run [App.GenerateMore;
                             App.MoreAnswered ServiceThrows (fun _ => 0%Z);
                             App.GenerateMore;
                             App.MoreAnswered EmptyText (fun _ => 0%Z)] s0))).
Proof.
  apply (session_clip_ids_distinct
           {| App.file := Some {| App.name := "talk.mp4"; App.size := 1000 |};
              App.length := App.AUTO; App.genre := App.PODCAST;
              App.aspectRatio := PORTRAIT; App.prompt := "" |}
           {| App.name := "talk.mp4"; App.size := 1000 |} 600 2 1
           ServiceThrows (fun _ => 0%Z)
           [(ServiceThrows, fun _ => 0%Z); (EmptyText, fun _ => 0%Z)] eq_refl).
Defined.

(** One analysis from the upload form to the preview: the duration is read
    ([Some d]) or not ([None]), the service answers, the timer fires. *)
Lemma App_analysis_round (s : App.State) (cfg : App.VideoConfig) (f : App.File)
    (d : option Q) (response : ServiceResponse) (now : nat -> Z) :
  App.view s = App.UploadForm ->
  App.analysis s = None ->
  App.timeoutPending s = false ->
  App.file cfg = Some f ->
  let s' := App.run [App.Analyze cfg;
                     match d with
                     | Some d => App.DurationLoaded d
                     | None => App.DurationFailed
                     end;
                     App.ServiceAnswered response now; App.TimeoutFired] s in
  App.clips s' = analyzeVideoForClips response now (App.name f)
                   match d with Some d => d | None => 600 end 1 /\
  App.videoDuration s' = match d with Some d => d | None => App.videoDuration s end /\
  App.iteration s' = 1%N /\
  App.config s' = Some cfg /\
  App.currentSegment s' = App.Segment2 /\
  App.more s' = App.more s /\
  App.isGeneratingMore s' = App.isGeneratingMore s /\
  App.analysis s' = None /\
  App.timeoutPending s' = false /\
  App.isProcessing s' = false.
Proof.
  intros Hview Han Hto Hfile. cbv zeta. rewrite App_run_cons.
  assert (E1 : App.dispatch (App.Analyze cfg) s = App.handleAnalyze cfg s)
    by (unfold App.dispatch; now rewrite Hview, Hfile, Han, Hto).
  rewrite E1. clear E1. rewrite App_run_cons.
  set (a0 := {| App.videoConfig := cfg; App.duration := 600;
                App.awaitingDuration := true |}).
  assert (E2 : App.dispatch match d with
                            | Some d => App.DurationLoaded d
                            | None => App.DurationFailed
                            end (App.handleAnalyze cfg s)
               = App.durationSettled d a0 (App.handleAnalyze cfg s))
    by (destruct d; unfold App.dispatch, App.handleAnalyze;
        cbn [App.analysis]; rewrite Hfile; reflexivity).
  rewrite E2. clear E2. rewrite App_run_cons.
  set (s2 := App.durationSettled d a0 (App.handleAnalyze cfg s)).
  set (a1 := {| App.videoConfig := cfg;
                App.duration := match d with Some d => d | None => 600 end;
                App.awaitingDuration := false |}).
  assert (E3 : App.dispatch (App.ServiceAnswered response now) s2
               = App.analysisAnswered response now a1 s2)
    by reflexivity.
  rewrite E3. clear E3. rewrite App_run_cons.
  assert (E4 : App.dispatch App.TimeoutFired (App.analysisAnswered response now a1 s2)
               = App.timeoutFired (App.analysisAnswered response now a1 s2))
    by reflexivity.
  rewrite E4. clear E4. unfold App.run. cbn [fold_left].
  unfold App.timeoutFired, App.analysisAnswered.
  cbn [App.clips App.videoDuration App.iteration App.config App.currentSegment
         App.more App.isGeneratingMore App.analysis App.timeoutPending
         App.isProcessing].
  subst s2 a1. unfold App.durationSettled, App.handleAnalyze.
  cbn [App.clips App.videoDuration App.iteration App.config App.currentSegment
         App.more App.isGeneratingMore App.analysis App.timeoutPending
         App.isProcessing App.videoConfig App.duration].
  unfold App.fileNameOf. rewrite Hfile. repeat split.
Qed.

(** When the duration of a video cannot be read, [handleAnalyze] asks the
    service with its default of 600 seconds but leaves the [videoDuration]
    state as it was; "+ Generate More" reads that state, so after a first
    video of [d1] seconds the further clips of the second video are asked for
    with [d1]. *)
Theorem generate_more_uses_stale_duration
    (cfg1 cfg2 : App.VideoConfig) (f1 f2 : App.File) (d1 : Q)
    (r1 r2 r3 : ServiceResponse) (n1 n2 n3 : nat -> Z)
    (Hf1 : App.file cfg1 = Some f1) (Hf2 : App.file cfg2 = Some f2)
    (Hfirst : analyzeVideoForClips r1 n1 (App.name f1) d1 1 <> [])
    (Hsecond : analyzeVideoForClips r2 n2 (App.name f2) 600 1 <> []) :
  let s := App.run ([App.Analyze cfg1; App.DurationLoaded d1;
                     App.ServiceAnswered r1 n1; App.TimeoutFired]
                    ++ [App.Back]
                    ++ [App.Analyze cfg2; App.DurationFailed;
                        App.ServiceAnswered r2 n2; App.TimeoutFired]
                    ++ [App.GenerateMore; App.MoreAnswered r3 n3])
             App.initial in
  App.videoDuration s = d1 /\
  App.clips s = analyzeVideoForClips r3 n3 (App.name f2) d1 2
                ++ analyzeVideoForClips r2 n2 (App.name f2) 600 1.
Proof.
  cbv zeta. rewrite !App_run_app.
  (* first analysis *)
  destruct (App_analysis_round App.initial cfg1 f1 (Some d1) r1 n1
              eq_refl eq_refl eq_refl Hf1)
    as (C1 & D1 & I1 & G1 & S1 & M1 & GM1 & A1 & T1 & P1).
  set (s1 := App.run [App.Analyze cfg1; App.DurationLoaded d1;
                      App.ServiceAnswered r1 n1; App.TimeoutFired] App.initial)
    in *.
  (* back to the upload form *)
  assert (Eb : App.run [App.Back] s1 = App.onBack s1).
  { unfold App.run, App.dispatch, App.view. cbn [fold_left].
    rewrite S1, G1, C1.
    destruct (analyzeVideoForClips r1 n1 (App.name f1) d1 1);
      [contradiction | reflexivity]. }
  rewrite Eb. clear Eb.
  (* second analysis, duration not readable *)
  destruct (App_analysis_round (App.onBack s1) cfg2 f2 None r2 n2)
    as (C2 & D2 & I2 & G2 & S2 & M2 & GM2 & A2 & T2 & P2);
    try assumption;
    [unfold App.view, App.onBack; cbn [App.currentSegment App.isProcessing];
     now rewrite P1|].
  change (App.run [App.Analyze cfg2;
                   match @None Q with
                   | Some d => App.DurationLoaded d
                   | None => App.DurationFailed
                   end; App.ServiceAnswered r2 n2; App.TimeoutFired]
            (App.onBack s1))
    with (App.run [App.Analyze cfg2; App.DurationFailed;
                   App.ServiceAnswered r2 n2; App.TimeoutFired] (App.onBack s1))
    in *.
  set (s2 := App.run [App.Analyze cfg2; App.DurationFailed;
                      App.ServiceAnswered r2 n2; App.TimeoutFired]
               (App.onBack s1)) in *.
  cbn [App.videoDuration App.more App.isGeneratingMore App.onBack] in D2, M2, GM2.
  rewrite D1 in D2. rewrite M1 in M2. rewrite GM1 in GM2.
  (* generate more *)
  assert (Eg : App.dispatch App.GenerateMore s2 = App.handleGenerateMore s2).
  { unfold App.dispatch, App.view. rewrite S2, G2, M2, GM2, C2.
    destruct (analyzeVideoForClips r2 n2 (App.name f2) 600 1);
      [contradiction | reflexivity]. }
  rewrite !App_run_cons, Eg. unfold App.run. cbn [fold_left].
  unfold App.handleGenerateMore. rewrite G2.
  unfold App.dispatch. cbn [App.more].
  unfold App.moreAnswered.
  cbn [App.videoDuration App.clips App.moreConfig App.moreDuration
         App.nextIteration].
  unfold App.fileNameOf. rewrite Hf2, D2, I2, C2. split; reflexivity.
Qed.

Lemma generate_more_uses_stale_duration_witness :
  let cfg := {| App.file := Some {| App.name := "talk.mp4"; App.size := 1000 |};
                App.length := App.AUTO; App.genre := App.PODCAST;
                App.aspectRatio := PORTRAIT; App.prompt := "" |} in
  App.videoDuration
    (App.run ([App.Analyze cfg; App.DurationLoaded 45;
               App.ServiceAnswered ServiceThrows (fun _ => 0%Z); App.TimeoutFired]
              ++ [App.Back]
              ++ [App.Analyze cfg; App.DurationFailed;
                  App.ServiceAnswered ServiceThrows (fun _ => 0%Z);
                  App.TimeoutFired]
              ++ [App.GenerateMore;
                  App.MoreAnswered ServiceThrows (fun _ => 0%Z)])
       App.initial) = 45.
Proof.
  apply (generate_more_uses_stale_duration
           {| App.file := Some {| App.name := "talk.mp4"; App.size := 1000 |};
              App.length := App.AUTO; App.genre := App.PODCAST;
              App.aspectRatio := PORTRAIT; App.prompt := "" |}
           {| App.file := Some {| App.name := "talk.mp4"; App.size := 1000 |};
              App.length := App.AUTO; App.genre := App.PODCAST;
              App.aspectRatio := PORTRAIT; App.prompt := "" |}
           {| App.name := "talk.mp4"; App.size := 1000 |}
           {| App.name := "talk.mp4"; App.size := 1000 |} 45
           ServiceThrows ServiceThrows ServiceThrows
           (fun _ => 0%Z) (fun _ => 0%Z) (fun _ => 0%Z) eq_refl eq_refl).
  - discriminate.
  - discriminate.
Defined.

